(** * Commandos: branch parsing and the repository session

    A shallow embedding of
      - [src/app/git/parsers/branch.ts]                       ([parseBranches])
      - [src/app/routes/repository/repository.service.ts]     ([RepositoryService])
    together with the JavaScript primitives these two files rely on
    (truthiness, [String.prototype.split], [parseInt], global literal
    replacement). *)

From Stdlib Require Import ZArith String Ascii List Lia Bool.
From stdpp Require Import base option list gmap strings.

Local Open Scope string_scope.
Local Open Scope Z_scope.

(* ===================================================================== *)
(** * JavaScript primitives *)
(* ===================================================================== *)

Module JS.

(** A thrown [Error] object, identified by its message. *)
Inductive jsError : Type :=
| JsError (message : string).

(** A value of TypeScript type [string] as it exists at run time: [None]
    stands for [undefined] / [null]. *)
Definition text : Type := option string.

Definition isEmpty (s : string) : bool :=
  match s with
  | EmptyString => true
  | String _ _ => false
  end.

(** JavaScript truthiness of a string-or-undefined value: [undefined],
    [null] and the empty string are falsy, every other string is truthy. *)
Definition truthy (v : text) : bool :=
  match v with
  | Some s => negb (isEmpty s)
  | None => false
  end.

(** [Array.prototype.includes] on an array of string-or-undefined values
    (SameValueZero is plain equality on these). *)
Definition includes (l : list text) (v : text) : bool :=
  existsb (fun x => bool_decide (x = v)) l.

(** [String.prototype.split] with a non-empty literal separator.  The
    separator is searched left to right; [skip] counts the characters of a
    matched separator that are still to be consumed. *)
Fixpoint splitFrom (sep : string) (skip : nat) (s : string) : list string :=
  match s with
  | EmptyString => [EmptyString]
  | String c s' =>
      match skip with
      | S n => splitFrom sep n s'
      | O =>
          if String.prefix sep s
          then EmptyString :: splitFrom sep (Nat.pred (String.length sep)) s'
          else match splitFrom sep O s' with
               | piece :: pieces => String c piece :: pieces
               | [] => [String c EmptyString]
               end
      end
  end.

Definition split (sep : string) (s : string) : list string :=
  splitFrom sep O s.

(** [s.replace(/sep/g, by)] for a pattern that is a literal string: every
    left-to-right, non-overlapping occurrence of [sep] is replaced. *)
Definition replaceAll (sep by_ : string) (s : string) : string :=
  String.concat by_ (split sep s).

(** ** Numbers produced by [parseInt] *)

(** The Number values [parseInt] can return: NaN, an infinity, or an
    integer-valued double.  [Num 0] stands for both zeros, which [!==]
    does not tell apart. *)
Inductive jsnum : Type :=
| NaN
| Inf (negative : bool)
| Num (z : Z).

(** Round a non-negative integer to the nearest double (ties to even). *)
Definition roundDouble (m : Z) : jsnum :=
  if m <? 2 ^ 53 then Num m
  else
    let e := Z.log2 m - 52 in
    let q := Z.shiftr m e in
    let r := m - Z.shiftl q e in
    let half := Z.shiftl 1 (e - 1) in
    let q' := if (half <? r) || ((r =? half) && Z.odd q) then q + 1 else q in
    let v := Z.shiftl q' e in
    if 2 ^ 1024 <=? v then Inf false else Num v.

Definition negate (n : jsnum) : jsnum :=
  match n with
  | NaN => NaN
  | Inf b => Inf (negb b)
  | Num z => Num (- z)
  end.

(** White space and line terminators among the code units 0..255. *)
Definition isWhiteSpace (c : ascii) : bool :=
  let n := nat_of_ascii c in
  ((9 <=? n) && (n <=? 13))%nat || (n =? 32)%nat || (n =? 160)%nat.

Fixpoint trimStart (s : string) : string :=
  match s with
  | String c s' => if isWhiteSpace c then trimStart s' else s
  | EmptyString => s
  end.

(** Value of a character as a digit in the given radix (10 or 16). *)
Definition digitValue (radix : Z) (c : ascii) : option Z :=
  let n := Z.of_nat (nat_of_ascii c) in
  let d :=
    if (48 <=? n) && (n <=? 57) then Some (n - 48)
    else if (97 <=? n) && (n <=? 122) then Some (n - 87)
    else if (65 <=? n) && (n <=? 90) then Some (n - 55)
    else None in
  match d with
  | Some v => if v <? radix then Some v else None
  | None => None
  end.

(** Longest prefix of digits, accumulated most significant first;
    [None] when there is no digit at all. *)
Fixpoint digits (radix : Z) (acc : option Z) (s : string) : option Z :=
  match s with
  | String c s' =>
      match digitValue radix c with
      | Some d => digits radix (Some (radix * default 0 acc + d)) s'
      | None => acc
      end
  | EmptyString => acc
  end.

(** [parseInt(string)] without a radix argument (ECMA-262, 19.2.5): leading
    white space is skipped, then an optional sign, then an optional
    [0x]/[0X] prefix selecting radix 16; the longest digit prefix is read
    and anything after it is ignored; no digit gives NaN. *)
Definition parseInt (input : string) : jsnum :=
  let s := trimStart input in
  let '(negative, s) :=
    match s with
    | String "-" s' => (true, s')
    | String "+" s' => (false, s')
    | _ => (false, s)
    end in
  let '(radix, s) :=
    match s with
    | String "0" (String "x" s') => (16, s')
    | String "0" (String "X" s') => (16, s')
    | _ => (10, s)
    end in
  match digits radix None s with
  | None => NaN
  | Some m => if negative then negate (roundDouble m) else roundDouble m
  end.

(** Strict equality [===] between a field of type number that may still be
    [undefined] and a number. *)
Definition strictEq (a : option jsnum) (b : jsnum) : bool :=
  match a, b with
  | Some (Num x), Num y => x =? y
  | Some (Inf s), Inf s' => Bool.eqb s s'
  | _, _ => false
  end.

End JS.

(* ===================================================================== *)
(** * The branch model and its parser  (git/model, git/parsers/branch.ts) *)
(* ===================================================================== *)

Module Model.

(** A [Branch] object.  The properties copied from the formatter schema
    are text (a property bound to [None] holds [undefined]); [ahead] and
    [behind] are the two numeric properties of the type.  The code reads
    [name] and [upstream] only through the schema properties and the two
    counters only through [ahead] and [behind]; a schema key called ahead
    or behind would be overwritten by the two assignments that follow the
    copy, so its text is never read. *)
Record Branch : Type := mkBranch {
  fields : gmap string JS.text;
  ahead : Z;
  behind : Z
}.

(** Property access [b.key]: a missing property reads as [undefined]. *)
Definition prop (b : Branch) (key : string) : JS.text :=
  default None (fields b !! key).

Definition name (b : Branch) : JS.text := prop b "name".
Definition upstream (b : Branch) : JS.text := prop b "upstream".

Definition setAhead (n : Z) (b : Branch) : Branch :=
  {| fields := fields b; ahead := n; behind := behind b |}.
Definition setBehind (n : Z) (b : Branch) : Branch :=
  {| fields := fields b; ahead := ahead b; behind := n |}.

Definition Branches : Type := list Branch.

#[global] Instance Branch_eq_dec : EqDecision Branch.
Proof. solve_decision. Defined.

End Model.

Module Parsers.
Import Model.

(** The message of the error thrown on falsy input. *)
Definition ParseError : JS.jsError := JS.JsError "Failed to parse branches".

(** The field delimiter of the source: the four characters percent, x,
    zero, zero. *)
Definition delimiter : string := "%x00".
Definition newline : string := String "010" EmptyString.

Section WithSchema.
(** [Object.keys(branchFormaterObject)]: the schema object lives in
    git/model, outside the files embedded here. *)
Variable keys : list string.

(** [keys.forEach((key, ix) => (entry[key] = data[ix]))], started at
    index [ix]. *)
Fixpoint assignKeys (ks : list string) (ix : nat) (data : list string)
         (entry : gmap string JS.text) : gmap string JS.text :=
  match ks with
  | [] => entry
  | key :: ks' => assignKeys ks' (S ix) data (<[key := data !! ix]> entry)
  end.

(** Body of the [for] loop: one record line to one [Branch]. *)
Definition parseEntry (record : string) : Branch :=
  let data := JS.split delimiter record in
  let entry := assignKeys keys O data ∅ in
  {| fields := entry; ahead := 0; behind := 0 |}.

(** The [for] loop over [records], pushing one entry per record. *)
Fixpoint parseEntries (records : list string) : list Branch :=
  match records with
  | [] => []
  | record :: rest => parseEntry record :: parseEntries rest
  end.

(** "remove all upstream if local exists": the two [filter] lines. *)
Definition removeUpstreams (entries : list Branch) : list Branch :=
  let withUpstreamBranch :=
    List.map upstream (List.filter (fun e => JS.truthy (upstream e)) entries) in
  List.filter (fun f => negb (JS.includes withUpstreamBranch (name f))) entries.

Definition parseBranches (stdout : JS.text) : JS.jsError + Branches :=
  match stdout with
  | Some out =>
      if JS.truthy stdout then
        let records := JS.split newline out in
        let entries := parseEntries records in
        inr (removeUpstreams entries)
      else inl ParseError
  | None => inl ParseError
  end.

End WithSchema.

End Parsers.

(* ===================================================================== *)
(** * The command gateway  (git/commands) *)
(* ===================================================================== *)

Module Git.

(** One call of an imported git command, with its arguments. *)
Inductive Call : Type :=
| GetBranches (path : JS.text)
| GetCurrentBranch (path : JS.text)
| CountRevList (path : JS.text) (a b : JS.text).

(** What the imported commands answer.  Each returns a promise: [inl e]
    is a rejection with error [e], [inr v] a fulfilment with value [v]. *)
Record Gateway : Type := mkGateway {
  getBranches : JS.text -> JS.jsError + JS.text;
  getCurrentBranch : JS.text -> JS.jsError + JS.text;
  countRevList : JS.text -> JS.text -> JS.text -> JS.jsError + Z
}.

End Git.

(* ===================================================================== *)
(** * The fields of [RepositoryService] *)
(* ===================================================================== *)

Module State.
Import Model.

(** [RepositorySetting], of which the service reads [path] only. *)
Record RepositorySetting : Type := mkSetting {
  path : JS.text
}.

(** A value pushed to the subscribers of one of the two subjects. *)
Inductive Emission : Type :=
| LoadedNext (value : bool)
| BranchesNext (value : option Branches).

(** The instance fields.  A [BehaviorSubject] is its current value; every
    [next] is also appended to [emitted], oldest first.  [currentId] and
    [currentBranch] are declared without initialiser and [repositorySetting]
    can be [null]: [None] stands for [undefined] / [null]. *)
Record Session : Type := mkSession {
  currentId : option JS.jsnum;
  repositorySetting : option RepositorySetting;
  currentBranch : JS.text;
  loaded : bool;
  branches : option Branches;
  emitted : list Emission
}.

(** The state right after construction. *)
Definition initial : Session :=
  {| currentId := None; repositorySetting := None; currentBranch := None;
     loaded := false; branches := None; emitted := [] |}.

(** [this.loaded.next(v)] *)
Definition loadedNext (v : bool) (s : Session) : Session :=
  {| currentId := currentId s; repositorySetting := repositorySetting s;
     currentBranch := currentBranch s; loaded := v; branches := branches s;
     emitted := emitted s ++ [LoadedNext v] |}.

(** [this.branches.next(v)] *)
Definition branchesNext (v : option Branches) (s : Session) : Session :=
  {| currentId := currentId s; repositorySetting := repositorySetting s;
     currentBranch := currentBranch s; loaded := loaded s; branches := v;
     emitted := emitted s ++ [BranchesNext v] |}.

Definition setCurrentId (v : option JS.jsnum) (s : Session) : Session :=
  {| currentId := v; repositorySetting := repositorySetting s;
     currentBranch := currentBranch s; loaded := loaded s;
     branches := branches s; emitted := emitted s |}.

Definition setCurrentBranch (v : JS.text) (s : Session) : Session :=
  {| currentId := currentId s; repositorySetting := repositorySetting s;
     currentBranch := v; loaded := loaded s;
     branches := branches s; emitted := emitted s |}.

Definition setRepositorySetting (v : option RepositorySetting) (s : Session) : Session :=
  {| currentId := currentId s; repositorySetting := v;
     currentBranch := currentBranch s; loaded := loaded s;
     branches := branches s; emitted := emitted s |}.

End State.

(* ===================================================================== *)
(** * Async methods as resumptions *)
(* ===================================================================== *)

Module Async.
Import State.

(** The body of an [async] method: synchronous reads and updates of the
    instance fields, and [await]s of gateway calls, at which the method is
    suspended until the promise settles.  A rejected promise is rethrown
    at the [await]; the service has no [try]/[catch], so it ends the method. *)
Inductive Task (A : Type) : Type :=
| Ret (a : A)
| Throw (e : JS.jsError)
| Get (k : Session -> Task A)
| Update (f : Session -> Session) (k : Task A)
| AwaitGetBranches (path : JS.text) (k : JS.text -> Task A)
| AwaitGetCurrentBranch (path : JS.text) (k : JS.text -> Task A)
| AwaitCountRevList (path a b : JS.text) (k : Z -> Task A).

Arguments Ret {A} a.
Arguments Throw {A} e.
Arguments Get {A} k.
Arguments Update {A} f k.
Arguments AwaitGetBranches {A} path k.
Arguments AwaitGetCurrentBranch {A} path k.
Arguments AwaitCountRevList {A} path a b k.

Fixpoint bind {A B : Type} (t : Task A) (f : A -> Task B) : Task B :=
  match t with
  | Ret a => f a
  | Throw e => Throw e
  | Get k => Get (fun s => bind (k s) f)
  | Update g k => Update g (bind k f)
  | AwaitGetBranches p k => AwaitGetBranches p (fun v => bind (k v) f)
  | AwaitGetCurrentBranch p k => AwaitGetCurrentBranch p (fun v => bind (k v) f)
  | AwaitCountRevList p a b k => AwaitCountRevList p a b (fun v => bind (k v) f)
  end.

(** Reading the fields, and one synchronous assignment or [next]. *)
Definition get : Task Session := Get Ret.
Definition update (f : Session -> Session) : Task unit := Update f (Ret tt).

(** [await getBranches(path)], [await getCurrentBranch(path)] and
    [await countRevList(path, a, b)]. *)
Definition awaitGetBranches (path : JS.text) : Task JS.text :=
  AwaitGetBranches path Ret.
Definition awaitGetCurrentBranch (path : JS.text) : Task JS.text :=
  AwaitGetCurrentBranch path Ret.
Definition awaitCountRevList (path a b : JS.text) : Task Z :=
  AwaitCountRevList path a b Ret.

(** A synchronous call that returns or throws. *)
Definition try {A : Type} (r : JS.jsError + A) : Task A :=
  match r with
  | inl e => Throw e
  | inr a => Ret a
  end.

#[global] Instance Task_ret : MRet Task := @Ret.
#[global] Instance Task_bind : MBind Task := fun A B f t => bind t f.

End Async.

(* ===================================================================== *)
(** * RepositoryService  (routes/repository/repository.service.ts) *)
(* ===================================================================== *)

Module RepositoryService.
Import Model State Async.

(** [setId(id)] *)
Definition setId (id : string) (s : Session) : Session :=
  let newId := JS.parseInt id in
  let s := if negb (JS.strictEq (currentId s) newId)
           then loadedNext false s
           else s in
  setCurrentId (Some newId) s.

(** [getPath()]: [this.repositorySetting?.path?.replace(/\\\\/g, '/')];
    the pattern matches two consecutive backslashes. *)
Definition getPath (s : Session) : JS.text :=
  match repositorySetting s with
  | None => None
  | Some setting =>
      match path setting with
      | None => None
      | Some p => Some (JS.replaceAll "\\" "/" p)
      end
  end.

(** [getCurrentBranch()] *)
Definition getCurrentBranch : Task JS.text :=
  s ← get;
  currentBranch ← awaitGetCurrentBranch (getPath s);
  (if JS.truthy currentBranch
   then update (setCurrentBranch currentBranch)
   else mret tt);;
  s ← get;
  mret (State.currentBranch s).

(** [loadGitRepository()] *)
Definition loadGitRepository : Task unit :=
  s ← get;
  if negb (loaded s) then
    update (loadedNext false);;
    getCurrentBranch;;
    update (loadedNext true)
  else mret tt.

(** [parsedBranches.filter(f => f.upstream)] returns a new array holding
    the same objects.  An object is identified by its position in
    [parsedBranches]; the filtered array is the list of those positions,
    so that an assignment to [element.ahead] is an assignment to the
    object held by [parsedBranches]. *)
Fixpoint filterRefs (p : Branch -> bool) (ix : nat) (objects : list Branch) : list nat :=
  match objects with
  | [] => []
  | b :: rest =>
      if p b then ix :: filterRefs p (S ix) rest else filterRefs p (S ix) rest
  end.

Definition TypeError : JS.jsError :=
  JS.JsError "Cannot read properties of undefined".

(** The [for] loop of [getBranches] over [upstreamBranches]. *)
Fixpoint countLoop (upstreamBranches : list nat) (parsedBranches : list Branch)
  : Task (list Branch) :=
  match upstreamBranches with
  | [] => mret parsedBranches
  | ref :: rest =>
      match parsedBranches !! ref with
      | None => Throw TypeError
      | Some element =>
          s ← get;
          ahead ← awaitCountRevList (getPath s) (upstream element) (name element);
          s ← get;
          behind ← awaitCountRevList (getPath s) (name element) (upstream element);
          countLoop rest (<[ref := setBehind behind (setAhead ahead element)]> parsedBranches)
      end
  end.

Section WithSchema.
Variable keys : list string.

(** [getBranches()] *)
Definition getBranches : Task unit :=
  s ← get;
  branches ← awaitGetBranches (getPath s);
  if JS.truthy branches then
    parsedBranches ← try (Parsers.parseBranches keys branches);
    let upstreamBranches := filterRefs (fun f => JS.truthy (upstream f)) O parsedBranches in
    parsedBranches ← countLoop upstreamBranches parsedBranches;
    update (branchesNext (Some parsedBranches))
  else mret tt.

End WithSchema.

(** [unload()] *)
Definition unload (s : Session) : Session :=
  setRepositorySetting None (loadedNext false s).

Section WithSettings.
(** [repositoriesSettingsService.getRepository]: the settings service lives
    in core/services, outside the files embedded here.  It is called with
    [this.currentId], whatever that holds. *)
Variable getRepository : option JS.jsnum -> option RepositorySetting.

(** [loadRepositorySetting()] *)
Definition loadRepositorySetting (s : Session) : Session :=
  if negb (loaded s)
  then setRepositorySetting (getRepository (currentId s)) s
  else s.

(** [reloadData()] *)
Definition reloadData : Task unit :=
  update (loadedNext false);;
  update loadRepositorySetting;;
  loadGitRepository.

End WithSettings.

End RepositoryService.

(* ===================================================================== *)
(** * Running a method against a gateway *)
(* ===================================================================== *)

Module Run.
Import State Async.

(** Where a run ends: the fields, the gateway calls issued (oldest first),
    the part of the schedule not consumed, and how the promise of the
    method settled ([inl e]: rejected with [e]). *)
Record Outcome (A : Type) : Type := mkOutcome {
  final : Session;
  calls : list Git.Call;
  pending : list (list string);
  result : JS.jsError + A
}.
Arguments mkOutcome {A}.
Arguments final {A}.
Arguments calls {A}.
Arguments pending {A}.
Arguments result {A}.

(** The [setId] calls made by the rest of the application while the method
    is suspended at one [await]. *)
Definition interfere (ids : list string) (s : Session) : Session :=
  foldl (fun s id => RepositoryService.setId id s) s ids.

(** Run a method to completion.  [schedule] gives, for each [await] in
    turn, the [setId] calls that happen while the method is suspended
    there; once the schedule is used up nothing interferes. *)
Fixpoint runWith {A : Type} (gw : Git.Gateway) (t : Task A)
         (schedule : list (list string)) (s : Session) (trace : list Git.Call)
  : Outcome A :=
  match t with
  | Ret a => mkOutcome s trace schedule (inr a)
  | Throw e => mkOutcome s trace schedule (inl e)
  | Get k => runWith gw (k s) schedule s trace
  | Update f k => runWith gw k schedule (f s) trace
  | AwaitGetBranches p k =>
      let s' := interfere (hd [] schedule) s in
      match Git.getBranches gw p with
      | inl e => mkOutcome s' (trace ++ [Git.GetBranches p]) (tl schedule) (inl e)
      | inr v => runWith gw (k v) (tl schedule) s' (trace ++ [Git.GetBranches p])
      end
  | AwaitGetCurrentBranch p k =>
      let s' := interfere (hd [] schedule) s in
      match Git.getCurrentBranch gw p with
      | inl e => mkOutcome s' (trace ++ [Git.GetCurrentBranch p]) (tl schedule) (inl e)
      | inr v => runWith gw (k v) (tl schedule) s' (trace ++ [Git.GetCurrentBranch p])
      end
  | AwaitCountRevList p a b k =>
      let s' := interfere (hd [] schedule) s in
      match Git.countRevList gw p a b with
      | inl e => mkOutcome s' (trace ++ [Git.CountRevList p a b]) (tl schedule) (inl e)
      | inr v => runWith gw (k v) (tl schedule) s' (trace ++ [Git.CountRevList p a b])
      end
  end.

(** A run during which nothing else touches the service. *)
Definition run {A : Type} (gw : Git.Gateway) (t : Task A) (s : Session) : Outcome A :=
  runWith gw t [] s [].

End Run.

(* ===================================================================== *)
(** * The deduplication rule and the divergence rule, as the specification
      words them *)
(* ===================================================================== *)

Module Spec.
Import Model.

(** An upstream value is non-empty when it is present and not the empty
    string. *)
Definition nonEmpty (v : JS.text) : Prop := v ≠ None ∧ v ≠ Some EmptyString.

#[global] Instance nonEmpty_dec (v : JS.text) : Decision (nonEmpty v).
Proof. unfold nonEmpty. apply _. Defined.

(** U = { r.upstream | r in records, r.upstream non-empty } *)
Definition upstreamSet (records : list Branch) : gset JS.text :=
  list_to_set (filter nonEmpty (upstream <$> records)).

(** Output = { r in records | r.name not in U }, in the order of [records]. *)
Definition resolve (records : list Branch) : list Branch :=
  filter (fun r => name r ∉ upstreamSet records) records.

(** Number of line feeds in a text. *)
Fixpoint lineFeeds (s : string) : nat :=
  match s with
  | EmptyString => O
  | String c s' => if Ascii.eqb c "010"%char then S (lineFeeds s') else lineFeeds s'
  end.

(** The divergence rule for one branch, given the two counts as a function
    of the pair of refs. *)
Definition diverge (count : JS.text -> JS.text -> Z) (b : Branch) : Branch :=
  if JS.truthy (upstream b)
  then {| fields := fields b;
          ahead := count (upstream b) (name b);
          behind := count (name b) (upstream b) |}
  else b.

(** The counting calls the rule asks for, for one branch. *)
Definition countCalls (path : JS.text) (b : Branch) : list Git.Call :=
  if JS.truthy (upstream b)
  then [Git.CountRevList path (upstream b) (name b);
        Git.CountRevList path (name b) (upstream b)]
  else [].

End Spec.

(* ===================================================================== *)
(** * The refresh as a function of the gateway *)
(* ===================================================================== *)

Module Reference.
Import Model State.

Definition consResult (b : Branch) (r : JS.jsError + list Branch)
  : JS.jsError + list Branch :=
  match r with
  | inl e => inl e
  | inr bs => inr (b :: bs)
  end.

(** What the counting loop does on a collection, read off branch by
    branch: the calls it issues, in order, and either the first error met
    or the collection with the counts filled in. *)
Fixpoint countAll (gw : Git.Gateway) (p : JS.text) (l : list Branch)
  : list Git.Call * (JS.jsError + list Branch) :=
  match l with
  | [] => ([], inr [])
  | b :: rest =>
      if JS.truthy (upstream b) then
        let c1 := Git.CountRevList p (upstream b) (name b) in
        let c2 := Git.CountRevList p (name b) (upstream b) in
        match Git.countRevList gw p (upstream b) (name b) with
        | inl e => ([c1], inl e)
        | inr a =>
            match Git.countRevList gw p (name b) (upstream b) with
            | inl e => ([c1; c2], inl e)
            | inr d =>
                let '(cs, r) := countAll gw p rest in
                (c1 :: c2 :: cs, consResult (setBehind d (setAhead a b)) r)
            end
        end
      else
        let '(cs, r) := countAll gw p rest in (cs, consResult b r)
  end.

(** Both counting calls of a tracked branch [b] are fulfilled, with the
    values [count] gives for the two pairs of refs. *)
Definition answered (gw : Git.Gateway) (p : JS.text)
           (count : JS.text -> JS.text -> Z) (b : Branch) : Prop :=
  JS.truthy (upstream b) = true ->
  Git.countRevList gw p (upstream b) (name b) = inr (count (upstream b) (name b))
  /\ Git.countRevList gw p (name b) (upstream b) = inr (count (name b) (upstream b)).

End Reference.

(* ===================================================================== *)
(** * Concrete inputs *)
(* ===================================================================== *)

Module Samples.
Import Model State.

(** A schema in the order the specification lists the fields. *)
Definition schema : list string := ["name"; "upstream"; "sha"; "isCurrent"]%string.

(** A record with a name and no upstream property. *)
Definition named (n : string) : Branch :=
  {| fields := {[ "name" := Some n ]}; ahead := 0; behind := 0 |}.

(** A record with a name and an upstream. *)
Definition tracking (n u : string) : Branch :=
  {| fields := {[ "name" := Some n; "upstream" := Some u ]}; ahead := 0; behind := 0 |}.

Definition fourRecords : list Branch :=
  [named "main"; named "origin/main"; tracking "feature" "origin/feature";
   named "origin/feature"].

(** Text of one well-formed line followed by a line feed. *)
Definition mainThenBlank : string :=
  "main%x00origin/main%x00a1b2c3%x00*" ++ Parsers.newline.

(** Listing of one tracked branch. *)
Definition featureListing : string :=
  "feature%x00origin/feature%x004d5e6f%x00*".

(** Listing of two tracked branches. *)
Definition twoTracked : string :=
  "feature%x00origin/feature%x004d5e6f%x00*" ++ Parsers.newline ++
  "fix%x00origin/fix%x00778899%x00".

Definition repoOne : option RepositorySetting := Some {| path := Some "/repos/one" |}.

(** A loaded session on repository 1. *)
Definition sessionOne : Session :=
  {| currentId := Some (JS.Num 1); repositorySetting := repoOne;
     currentBranch := Some "main"; loaded := true;
     branches := Some [named "main"]; emitted := [] |}.

Definition gitFailure : JS.jsError := JS.JsError "git failed".

(** A gateway over one repository: [listing] is what the branch command
    prints and [count] what the counting command answers. *)
Definition gateway (listing : JS.text) (count : JS.text -> JS.text -> JS.jsError + Z)
  : Git.Gateway :=
  {| Git.getBranches := fun _ => inr listing;
     Git.getCurrentBranch := fun _ => inr None;
     Git.countRevList := fun _ a b => count a b |}.

(** Counts of the divergence example: 2 from origin/feature excluding
    feature, 5 from feature excluding origin/feature. *)
Definition twoFiveCount (a b : JS.text) : Z :=
  if bool_decide (a = Some "origin/feature" ∧ b = Some "feature") then 2
  else if bool_decide (a = Some "feature" ∧ b = Some "origin/feature") then 5
  else 0.

Definition twoFive (a b : JS.text) : JS.jsError + Z := inr (twoFiveCount a b).

(** What [parseBranches] returns on [featureListing]. *)
Definition featureParsed : Branches :=
  Parsers.removeUpstreams
    (Parsers.parseEntries schema (JS.split Parsers.newline featureListing)).

(** What [parseBranches] returns on [twoTracked]. *)
Definition twoTrackedParsed : Branches :=
  Parsers.removeUpstreams
    (Parsers.parseEntries schema (JS.split Parsers.newline twoTracked)).

(** Counting fails for the branch [feature] and works for every other. *)
Definition featureFails (a b : JS.text) : JS.jsError + Z :=
  if bool_decide (a = Some "origin/feature") then inl gitFailure else inr 1.

End Samples.

(* ===================================================================== *)
(** * Branch deletion and the user configuration  (repository.service.ts) *)
(* ===================================================================== *)

Module Ops.
Import State.

(** [UserConfig] *)
Record UserConfig : Type := mkUserConfig {
  name : JS.text;
  email : JS.text;
  global : bool
}.

(** What the methods of this part do to the outside, in order: a line
    given to the logger, or a call of an imported command. *)
Inductive Event : Type :=
| LoggerInfo (message : string)
| DeleteLocalBranch (name : string) (path : JS.text)
| DeleteRemoteBranch (name : string) (path : JS.text)
| GetUsername (path : JS.text) (global : bool)
| GetUserMail (path : JS.text) (global : bool).

(** What the imported commands answer ([inl e]: the promise is rejected
    with [e]).  The value of the two deleting commands is not used. *)
Record Commands : Type := mkCommands {
  deleteLocalBranch : string -> JS.text -> JS.jsError + unit;
  deleteRemoteBranch : string -> JS.text -> JS.jsError + unit;
  getUsername : JS.text -> bool -> JS.jsError + JS.text;
  getUserMail : JS.text -> bool -> JS.jsError + JS.text
}.

(** The body of one of these [async] methods.  They read the fields (for
    [getPath]) and never assign one. *)
Inductive Proc (A : Type) : Type :=
| Return (a : A)
| Reject (e : JS.jsError)
| Ask (k : Session -> Proc A)
| Logger (message : string) (k : Proc A)
| AwaitDeleteLocalBranch (name : string) (path : JS.text) (k : Proc A)
| AwaitDeleteRemoteBranch (name : string) (path : JS.text) (k : Proc A)
| AwaitGetUsername (path : JS.text) (global : bool) (k : JS.text -> Proc A)
| AwaitGetUserMail (path : JS.text) (global : bool) (k : JS.text -> Proc A).

Arguments Return {A} a.
Arguments Reject {A} e.
Arguments Ask {A} k.
Arguments Logger {A} message k.
Arguments AwaitDeleteLocalBranch {A} name path k.
Arguments AwaitDeleteRemoteBranch {A} name path k.
Arguments AwaitGetUsername {A} path global k.
Arguments AwaitGetUserMail {A} path global k.

Fixpoint bind {A B : Type} (p : Proc A) (f : A -> Proc B) : Proc B :=
  match p with
  | Return a => f a
  | Reject e => Reject e
  | Ask k => Ask (fun s => bind (k s) f)
  | Logger m k => Logger m (bind k f)
  | AwaitDeleteLocalBranch n q k => AwaitDeleteLocalBranch n q (bind k f)
  | AwaitDeleteRemoteBranch n q k => AwaitDeleteRemoteBranch n q (bind k f)
  | AwaitGetUsername q g k => AwaitGetUsername q g (fun v => bind (k v) f)
  | AwaitGetUserMail q g k => AwaitGetUserMail q g (fun v => bind (k v) f)
  end.

#[global] Instance Proc_ret : MRet Proc := @Return.
#[global] Instance Proc_bind : MBind Proc := fun A B f p => bind p f.

Definition ask : Proc Session := Ask Return.
Definition loggerInfo (message : string) : Proc unit := Logger message (Return tt).
Definition awaitDeleteLocalBranch (name : string) (path : JS.text) : Proc unit :=
  AwaitDeleteLocalBranch name path (Return tt).
Definition awaitDeleteRemoteBranch (name : string) (path : JS.text) : Proc unit :=
  AwaitDeleteRemoteBranch name path (Return tt).
Definition awaitGetUsername (path : JS.text) (global : bool) : Proc JS.text :=
  AwaitGetUsername path global Return.
Definition awaitGetUserMail (path : JS.text) (global : bool) : Proc JS.text :=
  AwaitGetUserMail path global Return.

(** [deleteBranch(name, includeRemote = false)] *)
Definition deleteBranch (name : string) (includeRemote : bool) : Proc unit :=
  let isRemote := false in
  (if negb isRemote
   then s ← ask; awaitDeleteLocalBranch name (RepositoryService.getPath s)
   else mret tt);;
  (if includeRemote || isRemote
   then s ← ask; awaitDeleteRemoteBranch name (RepositoryService.getPath s)
   else mret tt).

(** [deleteBranches(names)] *)
Fixpoint deleteBranches (names : list string) : Proc unit :=
  match names with
  | [] => mret tt
  | name :: rest =>
      loggerInfo ("delete branch " ++ name);;
      deleteBranch name false;;
      deleteBranches rest
  end.

(** [loadGlobalUserConfig()] *)
Definition loadGlobalUserConfig : Proc UserConfig :=
  name ← awaitGetUsername None true;
  email ← awaitGetUserMail None true;
  mret {| name := name; email := email; global := true |}.

(** [loadUserConfig()] *)
Definition loadUserConfig : Proc UserConfig :=
  user ← loadGlobalUserConfig;
  s ← ask;
  localName ← awaitGetUsername (RepositoryService.getPath s) false;
  s ← ask;
  localEmail ← awaitGetUserMail (RepositoryService.getPath s) false;
  if JS.truthy localName || JS.truthy localEmail
  then mret {| name := localName; email := localEmail; global := false |}
  else mret user.

(** Where a run ends: what was done to the outside, oldest first, and how
    the promise settled. *)
Record Outcome (A : Type) : Type := mkOutcome {
  events : list Event;
  result : JS.jsError + A
}.
Arguments mkOutcome {A}.
Arguments events {A}.
Arguments result {A}.

(** Run a method to completion on a service whose fields are [s]. *)
Fixpoint exec {A : Type} (cmds : Commands) (s : Session) (p : Proc A)
         (trace : list Event) : Outcome A :=
  match p with
  | Return a => mkOutcome trace (inr a)
  | Reject e => mkOutcome trace (inl e)
  | Ask k => exec cmds s (k s) trace
  | Logger m k => exec cmds s k (trace ++ [LoggerInfo m])
  | AwaitDeleteLocalBranch n q k =>
      match deleteLocalBranch cmds n q with
      | inl e => mkOutcome (trace ++ [DeleteLocalBranch n q]) (inl e)
      | inr _ => exec cmds s k (trace ++ [DeleteLocalBranch n q])
      end
  | AwaitDeleteRemoteBranch n q k =>
      match deleteRemoteBranch cmds n q with
      | inl e => mkOutcome (trace ++ [DeleteRemoteBranch n q]) (inl e)
      | inr _ => exec cmds s k (trace ++ [DeleteRemoteBranch n q])
      end
  | AwaitGetUsername q g k =>
      match getUsername cmds q g with
      | inl e => mkOutcome (trace ++ [GetUsername q g]) (inl e)
      | inr v => exec cmds s (k v) (trace ++ [GetUsername q g])
      end
  | AwaitGetUserMail q g k =>
      match getUserMail cmds q g with
      | inl e => mkOutcome (trace ++ [GetUserMail q g]) (inl e)
      | inr v => exec cmds s (k v) (trace ++ [GetUserMail q g])
      end
  end.

End Ops.

(* ===================================================================== *)
(** * Predicates and inputs for the further properties *)
(* ===================================================================== *)

Module Text.

(** [sub] occurs somewhere in [s]. *)
Fixpoint occurs (sub s : string) : bool :=
  String.prefix sub s
  || match s with
     | EmptyString => false
     | String _ s' => occurs sub s'
     end.

(** Two consecutive backslashes, the pattern of [getPath]. *)
Definition twoBackslashes : string := "\\".

End Text.

Module MoreSamples.
Import State.

(** A setting whose path is written with doubled backslashes. *)
Definition repoTwo : option RepositorySetting :=
  Some {| path := Some "C:\\repos\\two" |}.

(** A settings service that knows the repositories 1 and 2. *)
Definition settings (id : option JS.jsnum) : option RepositorySetting :=
  match id with
  | Some (JS.Num 1) => Samples.repoOne
  | Some (JS.Num 2) => repoTwo
  | _ => None
  end.

(** A session on repository 2 that is not loaded. *)
Definition sessionTwo : Session :=
  {| currentId := Some (JS.Num 2); repositorySetting := repoTwo;
     currentBranch := None; loaded := false; branches := None; emitted := [] |}.

(** A gateway whose current-branch command settles as [answer]. *)
Definition gatewayCurrent (answer : JS.jsError + JS.text) : Git.Gateway :=
  {| Git.getBranches := fun _ => inl Samples.gitFailure;
     Git.getCurrentBranch := fun _ => answer;
     Git.countRevList := fun _ _ _ => inr 0 |}.

(** Commands that fail to delete the local branch [failing] and no other;
    the user has a global name and mail and a local name only. *)
Definition commands (failing : string) : Ops.Commands :=
  {| Ops.deleteLocalBranch :=
       fun n _ => if String.eqb n failing then inl Samples.gitFailure else inr tt;
     Ops.deleteRemoteBranch := fun _ _ => inr tt;
     Ops.getUsername :=
       fun _ g => inr (Some (if g then "Global Name" else "Local Name"));
     Ops.getUserMail :=
       fun _ g => inr (if g then Some "global@example.org" else Some "") |}.

End MoreSamples.

(* ===================================================================== *)
(** * The primitives on concrete inputs *)
(* ===================================================================== *)

Example split_lines : JS.split (String "010" "") ("a" ++ String "010" "b" ++ String "010" "") = ["a"; "b"; ""]%string.
Proof. reflexivity. Qed.
Example split_fields : JS.split "%x00" "main%x00origin/main%x00" = ["main"; "origin/main"; ""]%string.
Proof. reflexivity. Qed.
Example split_fields2 : JS.split "%x00" "%x0%x00%x000%x" = ["%x0"; ""; "0%x"]%string.
Proof. reflexivity. Qed.
Example split_empty : JS.split "%x00" "" = [""]%string.
Proof. reflexivity. Qed.
Example parseInt_1 : JS.parseInt " 42px" = JS.Num 42. Proof. reflexivity. Qed.
Example parseInt_2 : JS.parseInt "-0x1F" = JS.Num (-31). Proof. reflexivity. Qed.
Example parseInt_3 : JS.parseInt "abc" = JS.NaN. Proof. reflexivity. Qed.
Example parseInt_4 : JS.parseInt "9007199254740993" = JS.Num 9007199254740992. Proof. vm_compute. reflexivity. Qed.
Example parseInt_5 : JS.parseInt "9007199254740995" = JS.Num 9007199254740996. Proof. vm_compute. reflexivity. Qed.
Example parseInt_6 : JS.parseInt "0x" = JS.NaN. Proof. reflexivity. Qed.
Example replace_1 : JS.replaceAll "\\" "/" "C:\\repos\\a\b" = "C:/repos/a\b". Proof. reflexivity. Qed.

(* ===================================================================== *)
(** * Facts about the primitives *)
(* ===================================================================== *)

Section Primitives.

Lemma truthy_nonEmpty (v : JS.text) : JS.truthy v = true ↔ Spec.nonEmpty v.
Proof.
  unfold Spec.nonEmpty.
  destruct v as [[|c s]|]; simpl; split; try discriminate; try tauto;
    intros; try (split; discriminate); intuition congruence.
Qed.

Lemma truthy_Some_String (c : ascii) (s : string) :
  JS.truthy (Some (String c s)) = true.
Proof. reflexivity. Qed.

Lemma truthy_inv (v : JS.text) :
  JS.truthy v = true → ∃ c s, v = Some (String c s).
Proof. destruct v as [[|c s]|]; simpl; try discriminate; eauto. Qed.

Lemma includes_elem_of (l : list JS.text) (v : JS.text) :
  JS.includes l v = true ↔ v ∈ l.
Proof.
  unfold JS.includes. rewrite existsb_exists. split.
  - intros (x & Hin & Heq). apply bool_decide_eq_true in Heq. subst.
    by apply list_elem_of_In.
  - intros Hin. exists v. split; [by apply list_elem_of_In|].
    by apply bool_decide_eq_true.
Qed.

(** The boolean filter of the standard library and the filter on decidable
    predicates agree when the test decides the predicate. *)
Lemma filter_bool_decide {A : Type} (f : A → bool) (P : A → Prop)
      `{!∀ x, Decision (P x)} (l : list A) :
  (∀ x, f x = true ↔ P x) → List.filter f l = filter P l.
Proof.
  intros Hf. induction l as [|x l IH]; [done|].
  simpl. rewrite filter_cons. destruct (decide (P x)) as [HP|HP].
  - apply Hf in HP. rewrite HP. by f_equal.
  - destruct (f x) eqn:E; [by apply Hf in E|done].
Qed.

Lemma splitFrom_nonempty (sep : string) (s : string) (skip : nat) :
  JS.splitFrom sep skip s ≠ [].
Proof.
  revert skip. induction s as [|c s IH]; intros skip; cbn [JS.splitFrom]; [done|].
  destruct skip; [|apply IH].
  destruct (String.prefix sep (String c s)); [done|].
  destruct (JS.splitFrom sep 0 s); done.
Qed.

(** Splitting at line feeds gives one piece more than there are line
    feeds. *)
Lemma split_newline_length (s : string) :
  length (JS.split Parsers.newline s) = S (Spec.lineFeeds s).
Proof.
  unfold JS.split, Parsers.newline.
  induction s as [|c s IH]; [done|].
  cbn [JS.splitFrom Spec.lineFeeds String.prefix].
  destruct (ascii_dec "010" c) as [<-|Hne].
  - cbn. replace (String.prefix EmptyString s) with true by (by destruct s).
    cbn. by rewrite IH.
  - assert (Ascii.eqb c "010" = false) as -> by (apply Ascii.eqb_neq; congruence).
    destruct (JS.splitFrom _ 0 s) eqn:E; [by apply splitFrom_nonempty in E|].
    simpl in *. done.
Qed.

End Primitives.

(* ===================================================================== *)
(** * The parser *)
(* ===================================================================== *)

Section ParserFacts.
Import Model.
Variable keys : list string.

Lemma assignKeys_fresh (ks : list string) (ix : nat) (data : list string)
      (entry : gmap string JS.text) (key : string) :
  key ∉ ks → Parsers.assignKeys ks ix data entry !! key = entry !! key.
Proof.
  revert ix entry. induction ks as [|k ks IH]; intros ix entry Hnot; [done|].
  simpl. apply not_elem_of_cons in Hnot as [Hne Hnot].
  rewrite IH by done. by rewrite lookup_insert_ne.
Qed.

Lemma assignKeys_lookup (ks : list string) (ix : nat) (data : list string)
      (entry : gmap string JS.text) (i : nat) (key : string) :
  NoDup ks → ks !! i = Some key →
  Parsers.assignKeys ks ix data entry !! key = Some (data !! (ix + i)%nat).
Proof.
  revert ix entry i. induction ks as [|k ks IH]; intros ix entry i Hnd Hi; [done|].
  apply NoDup_cons in Hnd as [Hk Hnd]. destruct i as [|i]; simpl in *.
  - injection Hi as ->. rewrite assignKeys_fresh by done.
    rewrite lookup_insert_eq. by rewrite Nat.add_0_r.
  - rewrite (IH (S ix) _ i) by done. do 2 f_equal. lia.
Qed.

Lemma parseEntries_map (records : list string) :
  Parsers.parseEntries keys records = Parsers.parseEntry keys <$> records.
Proof. induction records as [|r rs IH]; [done|]. simpl. by rewrite IH. Qed.

Lemma parseEntries_counters (records : list string) (b : Branch) :
  b ∈ Parsers.parseEntries keys records → ahead b = 0 ∧ behind b = 0.
Proof.
  rewrite parseEntries_map. intros (r & -> & _)%list_elem_of_fmap. done.
Qed.

Lemma removeUpstreams_subset (entries : list Branch) (b : Branch) :
  b ∈ Parsers.removeUpstreams entries → b ∈ entries.
Proof.
  unfold Parsers.removeUpstreams. rewrite !list_elem_of_In.
  intros H%filter_In. tauto.
Qed.

Lemma elem_of_withUpstream (entries : list Branch) (v : JS.text) :
  v ∈ List.map upstream (List.filter (fun e => JS.truthy (upstream e)) entries)
  ↔ JS.truthy v = true ∧ ∃ r, r ∈ entries ∧ upstream r = v.
Proof.
  rewrite list_elem_of_In, in_map_iff. split.
  - intros (x & <- & Hin). apply filter_In in Hin as [Hin Ht].
    split; [done|]. exists x. by rewrite list_elem_of_In.
  - intros (Ht & x & Hin & <-). exists x. split; [done|].
    apply filter_In. by rewrite <- list_elem_of_In.
Qed.

Lemma elem_of_upstreamSet (records : list Branch) (v : JS.text) :
  v ∈ Spec.upstreamSet records
  ↔ Spec.nonEmpty v ∧ ∃ r, r ∈ records ∧ upstream r = v.
Proof.
  unfold Spec.upstreamSet.
  rewrite elem_of_list_to_set, list_elem_of_filter, list_elem_of_fmap.
  split.
  - intros (Hne & r & -> & Hin). eauto.
  - intros (Hne & r & Hin & <-). eauto.
Qed.

Lemma removeUpstreams_resolve (records : list Branch) :
  Parsers.removeUpstreams records = Spec.resolve records.
Proof.
  unfold Parsers.removeUpstreams, Spec.resolve.
  apply filter_bool_decide. intros r.
  rewrite negb_true_iff, <- not_true_iff_false, includes_elem_of.
  apply not_iff_compat.
  rewrite elem_of_withUpstream, elem_of_upstreamSet.
  by rewrite truthy_nonEmpty.
Qed.

Lemma parseBranches_truthy (c : ascii) (out : string) :
  Parsers.parseBranches keys (Some (String c out)) =
  inr (Parsers.removeUpstreams
         (Parsers.parseEntries keys (JS.split Parsers.newline (String c out)))).
Proof. reflexivity. Qed.

Lemma parseBranches_inr (stdout : JS.text) (parsed : Branches) :
  Parsers.parseBranches keys stdout = inr parsed →
  JS.truthy stdout = true ∧
  ∀ b, b ∈ parsed → ahead b = 0 ∧ behind b = 0.
Proof.
  destruct stdout as [[|c out]|]; simpl; try discriminate.
  intros [= <-]. split; [done|]. intros b Hb.
  apply removeUpstreams_subset in Hb. by apply parseEntries_counters in Hb.
Qed.

Lemma parseBranches_falsy (stdout : JS.text) :
  JS.truthy stdout = false →
  Parsers.parseBranches keys stdout = inl Parsers.ParseError.
Proof. destruct stdout as [[|c out]|]; simpl; done. Qed.

End ParserFacts.

(** C1.  Deduplication: the collection returned by the two filter lines
    is the input filtered by the rule "keep the records whose name is not in
    U", in input order, where U is the set of the non-empty upstream values
    of all records; this is what [parseBranches] returns for every
    non-empty text; and on the four records main, origin/main,
    feature (tracking origin/feature), origin/feature the output is
    main, origin/main, feature. *)
Theorem removeUpstreams_is_dedup_rule :
  (∀ records : list Model.Branch,
      Parsers.removeUpstreams records
      = filter (fun r => Model.name r ∉ Spec.upstreamSet records) records)
  ∧ (∀ (records : list Model.Branch) (v : JS.text),
        v ∈ Spec.upstreamSet records
        ↔ (v ≠ None ∧ v ≠ Some EmptyString)
          ∧ ∃ r, r ∈ records ∧ Model.upstream r = v)
  ∧ (∀ (keys : list string) (c : ascii) (out : string),
        Parsers.parseBranches keys (Some (String c out))
        = inr (Spec.resolve
                 (Parsers.parseEntries keys (JS.split Parsers.newline (String c out)))))
  ∧ Parsers.removeUpstreams Samples.fourRecords
    = [Samples.named "main"; Samples.named "origin/main";
       Samples.tracking "feature" "origin/feature"].
Proof.
  split; [|split; [|split]].
  - apply removeUpstreams_resolve.
  - intros records v. apply elem_of_upstreamSet.
  - intros keys c out. rewrite parseBranches_truthy.
    by rewrite removeUpstreams_resolve.
  - vm_compute. reflexivity.
Qed.

(** C8.  [parseBranches] throws the parse error on the empty string and on
    an absent ([null] / [undefined]) input; on neither does it return a
    record sequence, empty or not. *)
Theorem parseBranches_empty_or_absent_throws :
  ∀ keys : list string,
    Parsers.parseBranches keys (Some EmptyString) = inl Parsers.ParseError
    ∧ Parsers.parseBranches keys None = inl Parsers.ParseError
    ∧ (∀ records : Model.Branches,
          Parsers.parseBranches keys (Some EmptyString) ≠ inr records
          ∧ Parsers.parseBranches keys None ≠ inr records)
    ∧ Parsers.ParseError = JS.JsError "Failed to parse branches".
Proof.
  intros keys. repeat split; try reflexivity; simpl; discriminate.
Qed.

(** C3, as the code has it.  For every non-empty text the record loop
    makes exactly one record per line, a line being a piece between line
    feeds (so there are as many records as line feeds plus one, blank and
    trailing lines included); the record of a line binds every schema key
    to the field at the key's position, or to [undefined] when the line has
    fewer fields, binds nothing else, and has both counters at 0; the
    function returns these records after deduplication and does not throw. *)
Theorem parseEntries_one_record_per_line
        (keys : list string) (out : string) (i : nat) (line : string)
        (ix : nat) (key : string)
        (Hout : out ≠ EmptyString)
        (Hkeys : NoDup keys)
        (Hline : JS.split Parsers.newline out !! i = Some line)
        (Hkey : keys !! ix = Some key) :
  let entries := Parsers.parseEntries keys (JS.split Parsers.newline out) in
  Parsers.parseBranches keys (Some out) = inr (Parsers.removeUpstreams entries)
  ∧ length entries = S (Spec.lineFeeds out)
  ∧ ∃ b : Model.Branch,
      entries !! i = Some b
      ∧ Model.fields b !! key = Some (JS.split Parsers.delimiter line !! ix)
      ∧ (∀ other : string, other ∉ keys → Model.fields b !! other = None)
      ∧ Model.ahead b = 0 ∧ Model.behind b = 0.
Proof.
  intros entries. subst entries. split; [|split].
  - destruct out as [|c out]; [done|]. apply parseBranches_truthy.
  - rewrite parseEntries_map, length_fmap. apply split_newline_length.
  - exists (Parsers.parseEntry keys line). split; [|split; [|split]].
    + rewrite parseEntries_map, list_lookup_fmap, Hline. done.
    + unfold Parsers.parseEntry. simpl.
      by rewrite (assignKeys_lookup keys 0 _ _ ix key).
    + intros other Hother. unfold Parsers.parseEntry. simpl.
      by rewrite assignKeys_fresh.
    + done.
Qed.

Lemma parseEntries_one_record_per_line_witness :
  let entries :=
    Parsers.parseEntries Samples.schema (JS.split Parsers.newline Samples.mainThenBlank) in
  Parsers.parseBranches Samples.schema (Some Samples.mainThenBlank)
  = inr (Parsers.removeUpstreams entries)
  ∧ length entries = S (Spec.lineFeeds Samples.mainThenBlank)
  ∧ ∃ b : Model.Branch,
      entries !! 1%nat = Some b
      ∧ Model.fields b !! "upstream" = Some (JS.split Parsers.delimiter "" !! 1%nat)
      ∧ (∀ other : string, other ∉ Samples.schema → Model.fields b !! other = None)
      ∧ Model.ahead b = 0 ∧ Model.behind b = 0.
Proof.
  apply (parseEntries_one_record_per_line
           Samples.schema Samples.mainThenBlank 1 "" 1 "upstream").
  - discriminate.
  - apply (bool_decide_unpack _). vm_compute. exact I.
  - reflexivity.
  - reflexivity.
Defined.

(** C3 fails as stated: with the schema name, upstream, sha, isCurrent, a
    text of one well-formed line ended by a line feed gives two records;
    the second comes from the blank line, is kept, has the empty name and
    its other three fields [undefined]; nothing is thrown.  With a schema
    in which name is not first the blank line gives an [undefined] name. *)
Lemma parseBranches_emits_blank_line_record :
  (∃ parsed : Model.Branches,
      Parsers.parseBranches Samples.schema (Some Samples.mainThenBlank) = inr parsed
      ∧ (fun b => (Model.name b, Model.upstream b, Model.prop b "sha", Model.prop b "isCurrent"))
          <$> parsed
        = [(Some "main", Some "origin/main", Some "a1b2c3", Some "*");
           (Some "", None, None, None)])
  ∧ (∃ parsed : Model.Branches,
        Parsers.parseBranches ["sha"; "name"] (Some Samples.mainThenBlank) = inr parsed
        ∧ Model.name <$> parsed = [Some "origin/main"; None]).
Proof.
  split; eexists; (split; [reflexivity|]); vm_compute; reflexivity.
Qed.

(* ===================================================================== *)
(** * The session *)
(* ===================================================================== *)

Section SessionFacts.
Import State.

Lemma setId_repositorySetting (id : string) (s : Session) :
  repositorySetting (RepositoryService.setId id s) = repositorySetting s.
Proof. unfold RepositoryService.setId. by destruct (JS.strictEq _ _). Qed.

Lemma setId_branches (id : string) (s : Session) :
  branches (RepositoryService.setId id s) = branches s.
Proof. unfold RepositoryService.setId. by destruct (JS.strictEq _ _). Qed.

Lemma setId_getPath (id : string) (s : Session) :
  RepositoryService.getPath (RepositoryService.setId id s) = RepositoryService.getPath s.
Proof. unfold RepositoryService.getPath. by rewrite setId_repositorySetting. Qed.

Lemma strictEq_true (a : option JS.jsnum) (b : JS.jsnum) :
  JS.strictEq a b = true → a = Some b.
Proof.
  destruct a as [[| |x]|], b as [| |y]; simpl; try discriminate.
  - intros ->%eqb_prop. done.
  - intros ->%Z.eqb_eq. done.
Qed.

(** An id that does not parse is never strictly equal to the current
    identity: [setId] resets [loaded] each time it is given one. *)
Lemma setId_unparsed_id_resets (id : string) (s : Session) :
  JS.parseInt id = JS.NaN → loaded (RepositoryService.setId id s) = false.
Proof.
  intros Hnan. unfold RepositoryService.setId. rewrite Hnan.
  by destruct (currentId s) as [[| |x]|].
Qed.

(** An id that does not parse, given twice: the session reached by
    [setId "abc"] and a completed [loadGitRepository] is loaded, and the
    same id resets [loaded] again. *)
Lemma setId_unparsed_id_twice :
  let gw := Samples.gateway None Samples.twoFive in
  let s := Run.final (Run.run gw RepositoryService.loadGitRepository
                              (RepositoryService.setId "abc" initial)) in
  currentId s = Some JS.NaN
  ∧ loaded s = true
  ∧ loaded (RepositoryService.setId "abc" s) = false.
Proof. repeat split; reflexivity. Qed.

End SessionFacts.

(** C6, as the code has it.  [setId] is a synchronous function of the
    fields.  When the parsed id is not strictly equal to the current
    identity, [loaded] becomes false (and false is pushed to the
    subscribers) and the parsed id becomes the identity; the branches
    collection, the current branch name and the repository setting stay as
    they are.  When the parsed id is strictly equal to the current identity
    no field changes and nothing is pushed. *)
Theorem setId_resets_loaded_only :
  ∀ (id : string) (s : State.Session),
    RepositoryService.setId id s
    = (if JS.strictEq (State.currentId s) (JS.parseInt id) then s
       else {| State.currentId := Some (JS.parseInt id);
               State.repositorySetting := State.repositorySetting s;
               State.currentBranch := State.currentBranch s;
               State.loaded := false;
               State.branches := State.branches s;
               State.emitted := State.emitted s ++ [State.LoadedNext false] |})
    ∧ State.branches (RepositoryService.setId id s) = State.branches s
    ∧ State.currentBranch (RepositoryService.setId id s) = State.currentBranch s
    ∧ State.currentId (RepositoryService.setId id s) = Some (JS.parseInt id).
Proof.
  intros id s. unfold RepositoryService.setId.
  destruct (JS.strictEq _ _) eqn:E; simpl; repeat split; try reflexivity.
  apply strictEq_true in E. destruct s; simpl in *. by subst.
Qed.

(** C6 fails as stated: on a loaded session with identity 1 that holds a
    branches collection and a current branch name, [setId "2"] sets [loaded]
    to false and the identity to 2 but keeps the collection and the name. *)
Lemma setId_keeps_branches_and_name :
  State.currentId Samples.sessionOne = Some (JS.Num 1)
  ∧ State.loaded (RepositoryService.setId "2" Samples.sessionOne) = false
  ∧ State.currentId (RepositoryService.setId "2" Samples.sessionOne) = Some (JS.Num 2)
  ∧ State.branches (RepositoryService.setId "2" Samples.sessionOne)
    = Some [Samples.named "main"]
  ∧ State.currentBranch (RepositoryService.setId "2" Samples.sessionOne) = Some "main".
Proof. repeat split; reflexivity. Qed.

(** C10.  When the current-branch command answers with an empty or absent
    text, [getCurrentBranch] changes no field, and its promise is fulfilled
    with the stored [currentBranch], whatever it was. *)
Theorem getCurrentBranch_empty_keeps_stored
        (gw : Git.Gateway) (s : State.Session) (answer : JS.text)
        (Hanswer : Git.getCurrentBranch gw (RepositoryService.getPath s) = inr answer)
        (Hfalsy : JS.truthy answer = false) :
  Run.run gw RepositoryService.getCurrentBranch s
  = {| Run.final := s;
       Run.calls := [Git.GetCurrentBranch (RepositoryService.getPath s)];
       Run.pending := [];
       Run.result := inr (State.currentBranch s) |}.
Proof.
  unfold Run.run, RepositoryService.getCurrentBranch. simpl.
  rewrite Hanswer. simpl. rewrite Hfalsy. reflexivity.
Qed.

Lemma getCurrentBranch_empty_keeps_stored_witness :
  Run.run (Samples.gateway None Samples.twoFive) RepositoryService.getCurrentBranch
          Samples.sessionOne
  = {| Run.final := Samples.sessionOne;
       Run.calls := [Git.GetCurrentBranch (RepositoryService.getPath Samples.sessionOne)];
       Run.pending := [];
       Run.result := inr (Some "main") |}.
Proof.
  apply (getCurrentBranch_empty_keeps_stored
           (Samples.gateway None Samples.twoFive) Samples.sessionOne None).
  - reflexivity.
  - reflexivity.
Defined.

(* ===================================================================== *)
(** * Runs *)
(* ===================================================================== *)

Section RunFacts.
Import Model State Async Run.
Variable gw : Git.Gateway.

Lemma runWith_bind {A B : Type} (t : Task A) (f : A → Task B)
      (schedule : list (list string)) (s : Session) (trace : list Git.Call) :
  runWith gw (bind t f) schedule s trace
  = match result (runWith gw t schedule s trace) with
    | inl e => mkOutcome (final (runWith gw t schedule s trace))
                         (calls (runWith gw t schedule s trace))
                         (pending (runWith gw t schedule s trace)) (inl e)
    | inr a => runWith gw (f a) (pending (runWith gw t schedule s trace))
                       (final (runWith gw t schedule s trace))
                       (calls (runWith gw t schedule s trace))
    end.
Proof.
  revert schedule s trace.
  induction t as [a|e|k IH|g k IH|p k IH|p k IH|p a b k IH];
    intros schedule s trace; simpl.
  - reflexivity.
  - reflexivity.
  - apply IH.
  - apply IH.
  - destruct (Git.getBranches gw p); [reflexivity|apply IH].
  - destruct (Git.getCurrentBranch gw p); [reflexivity|apply IH].
  - destruct (Git.countRevList gw p a b); [reflexivity|apply IH].
Qed.

Lemma interfere_app (ids ids' : list string) (s : Session) :
  interfere (ids ++ ids') s = interfere ids' (interfere ids s).
Proof. unfold interfere. apply foldl_app. Qed.

Lemma interfere_getPath (ids : list string) (s : Session) :
  RepositoryService.getPath (interfere ids s) = RepositoryService.getPath s.
Proof.
  revert s. induction ids as [|id ids IH]; intros s; [done|].
  simpl. rewrite IH. apply setId_getPath.
Qed.

Lemma interfere_branches (ids : list string) (s : Session) :
  branches (interfere ids s) = branches s.
Proof.
  revert s. induction ids as [|id ids IH]; intros s; [done|].
  simpl. rewrite IH. apply setId_branches.
Qed.

Lemma interfere_step (n : nat) (schedule : list (list string)) (s : Session) :
  interfere (concat (take n (tl schedule))) (interfere (hd [] schedule) s)
  = interfere (concat (take (S n) schedule)) s.
Proof.
  destruct schedule as [|ids schedule]; simpl.
  - by rewrite take_nil.
  - by rewrite interfere_app.
Qed.

Lemma drop_tl {A : Type} (n : nat) (l : list A) : drop n (tl l) = drop (S n) l.
Proof. destruct l; simpl; [by rewrite drop_nil|done]. Qed.

(** The counting loop, run on the positions of the tracked branches of
    [todo] inside [finished ++ todo], under any schedule. *)
Lemma countLoop_runWith (todo : list Branch) :
  ∀ (finished : list Branch) (schedule : list (list string)) (s : Session)
    (trace : list Git.Call),
    runWith gw
      (RepositoryService.countLoop
         (RepositoryService.filterRefs (fun f => JS.truthy (upstream f))
            (length finished) todo)
         (finished ++ todo))
      schedule s trace
    = let cs := (Reference.countAll gw (RepositoryService.getPath s) todo).1 in
      {| final := interfere (concat (take (length cs) schedule)) s;
         calls := trace ++ cs;
         pending := drop (length cs) schedule;
         result :=
           match (Reference.countAll gw (RepositoryService.getPath s) todo).2 with
           | inl e => inl e
           | inr bs => inr (finished ++ bs)%list
           end |}.
Proof.
  induction todo as [|b todo IH]; intros finished schedule s trace.
  - simpl. rewrite ?drop_0, !app_nil_r. reflexivity.
  - cbn [RepositoryService.filterRefs Reference.countAll].
    cbn beta. destruct (JS.truthy (upstream b)) eqn:Hb.
    + cbn [RepositoryService.countLoop].
      rewrite list_lookup_middle by done.
      unfold mbind, Task_bind, get, awaitCountRevList. cbn [bind runWith].
      rewrite interfere_getPath.
      destruct (Git.countRevList gw _ (upstream b) (name b)) as [e|a].
      { destruct schedule as [|ids schedule]; simpl; rewrite ?app_nil_r; reflexivity. }
      destruct (Git.countRevList gw _ (name b) (upstream b)) as [e|d].
      { destruct schedule as [|ids [|ids' schedule]]; simpl;
          rewrite ?app_nil_r, ?interfere_app, <- ?app_assoc; reflexivity. }
      replace (<[length finished:=setBehind d (setAhead a b)]> (finished ++ b :: todo)%list)
        with ((finished ++ [setBehind d (setAhead a b)]) ++ todo)%list.
      2:{ rewrite <- app_assoc. simpl.
          rewrite (insert_app_r_alt finished) by lia.
          by rewrite Nat.sub_diag. }
      replace (S (length finished))
        with (length (finished ++ [setBehind d (setAhead a b)])%list)
        by (rewrite length_app; simpl; lia).
      rewrite IH. rewrite !interfere_getPath.
      destruct (Reference.countAll gw (RepositoryService.getPath s) todo) as [cs r].
      cbn -[take drop]. rewrite !interfere_step, !drop_tl.
      rewrite <- !app_assoc. simpl. f_equal.
      destruct r; simpl; [done|]. by rewrite <- app_assoc.
    + replace (finished ++ b :: todo)%list with ((finished ++ [b]) ++ todo)%list
        by (by rewrite <- app_assoc).
      replace (S (length finished)) with (length (finished ++ [b])%list)
        by (rewrite length_app; simpl; lia).
      rewrite IH.
      destruct (Reference.countAll gw (RepositoryService.getPath s) todo) as [cs r].
      simpl. f_equal. destruct r; simpl; [done|]. by rewrite <- app_assoc.
Qed.

End RunFacts.

(* ===================================================================== *)
(** * The branch refresh *)
(* ===================================================================== *)

Section RefreshFacts.
Import Model State Async Run.
Variable keys : list string.
Variable gw : Git.Gateway.

(** [getBranches] under any schedule, in closed form. *)
Lemma getBranches_runWith (schedule : list (list string)) (s : Session) :
  runWith gw (RepositoryService.getBranches keys) schedule s []
  = let p := RepositoryService.getPath s in
    match Git.getBranches gw p with
    | inl e =>
        mkOutcome (interfere (hd [] schedule) s) [Git.GetBranches p] (tl schedule) (inl e)
    | inr out =>
        match Parsers.parseBranches keys out with
        | inl _ =>
            mkOutcome (interfere (hd [] schedule) s) [Git.GetBranches p] (tl schedule)
                      (inr tt)
        | inr parsed =>
            let cs := (Reference.countAll gw p parsed).1 in
            let s' := interfere (concat (take (S (length cs)) schedule)) s in
            match (Reference.countAll gw p parsed).2 with
            | inl e =>
                mkOutcome s' (Git.GetBranches p :: cs) (drop (S (length cs)) schedule)
                          (inl e)
            | inr bs =>
                mkOutcome (branchesNext (Some bs) s') (Git.GetBranches p :: cs)
                          (drop (S (length cs)) schedule) (inr tt)
            end
        end
    end.
Proof.
  unfold RepositoryService.getBranches, mbind, Task_bind, get, awaitGetBranches.
  cbn [bind runWith].
  destruct (Git.getBranches gw (RepositoryService.getPath s)) as [e|out]; [done|].
  destruct (JS.truthy out) eqn:Hout.
  - apply truthy_inv in Hout as (c & o & ->).
    rewrite parseBranches_truthy. cbn [try bind].
    set (parsed := Parsers.removeUpstreams _).
    rewrite runWith_bind.
    rewrite (countLoop_runWith gw parsed [] (tl schedule)).
    cbn [final calls pending result].
    rewrite interfere_getPath, interfere_step, drop_tl.
    destruct (Reference.countAll gw (RepositoryService.getPath s) parsed) as [cs [e|bs]];
      reflexivity.
  - rewrite parseBranches_falsy by done. reflexivity.
Qed.

Section WithCounts.
Variable p : JS.text.
Variable count : JS.text → JS.text → Z.

Lemma countAll_answered (l : list Branch) :
  (∀ b, b ∈ l → Reference.answered gw p count b) →
  Reference.countAll gw p l
  = (flat_map (Spec.countCalls p) l, inr (Spec.diverge count <$> l)).
Proof.
  induction l as [|b l IH]; intros Hall; [done|].
  cbn [Reference.countAll flat_map fmap list_fmap].
  rewrite IH by (intros x Hx; apply Hall; by right).
  pose proof (Hall b (list_elem_of_here b l)) as Hans.
  unfold Spec.countCalls, Spec.diverge, Reference.answered in *.
  destruct (JS.truthy (upstream b)); [|done].
  destruct Hans as [-> ->]; done.
Qed.

Lemma countAll_failure (pre post : list Branch) (b : Branch) (e : JS.jsError) :
  (∀ x, x ∈ pre → Reference.answered gw p count x) →
  JS.truthy (upstream b) = true →
  match Git.countRevList gw p (upstream b) (name b) with
  | inl e' => e' = e
  | inr _ => Git.countRevList gw p (name b) (upstream b) = inl e
  end →
  Reference.countAll gw p (pre ++ b :: post)
  = ((flat_map (Spec.countCalls p) pre
      ++ match Git.countRevList gw p (upstream b) (name b) with
         | inl _ => [Git.CountRevList p (upstream b) (name b)]
         | inr _ => Spec.countCalls p b
         end)%list,
     inl e).
Proof.
  intros Hall Hb Hfail. induction pre as [|x pre IH].
  - cbn [app flat_map Reference.countAll]. unfold Spec.countCalls.
    rewrite Hb.
    destruct (Git.countRevList gw p (upstream b) (name b)); [by subst|].
    by rewrite Hfail.
  - cbn [app flat_map Reference.countAll].
    rewrite IH by (intros y Hy; apply Hall; by right).
    pose proof (Hall x (list_elem_of_here x pre)) as Hans.
    unfold Reference.answered in Hans.
    set (tail := match Git.countRevList gw p (upstream b) (name b) with
                 | inl _ => _ | inr _ => _ end).
    unfold Spec.countCalls.
    destruct (JS.truthy (upstream x)); [|done].
    destruct Hans as [-> ->]; done.
Qed.

End WithCounts.

End RefreshFacts.

(** C2.  When the branch command prints a text that parses to [parsed] and
    every counting call of a tracked branch is fulfilled, the refresh is
    fulfilled and publishes [parsed] with, for each branch with a non-empty
    upstream, ahead = count(upstream, name) and behind = count(name,
    upstream), every other branch unchanged; the gateway calls are the
    listing followed, branch by branch in order, by exactly these two
    counting calls of each tracked branch; and every published branch with
    an empty upstream has ahead = 0 and behind = 0. *)
Theorem getBranches_assigns_divergence
        (keys : list string) (gw : Git.Gateway) (s : State.Session)
        (out : JS.text) (parsed : Model.Branches) (count : JS.text → JS.text → Z)
        (Hlist : Git.getBranches gw (RepositoryService.getPath s) = inr out)
        (Hparse : Parsers.parseBranches keys out = inr parsed)
        (Hcount : ∀ b, b ∈ parsed →
                       Reference.answered gw (RepositoryService.getPath s) count b) :
  let r := Run.run gw (RepositoryService.getBranches keys) s in
  Run.result r = inr tt
  ∧ State.branches (Run.final r) = Some (Spec.diverge count <$> parsed)
  ∧ Run.calls r
    = Git.GetBranches (RepositoryService.getPath s)
      :: flat_map (Spec.countCalls (RepositoryService.getPath s)) parsed
  ∧ (∀ b, b ∈ Spec.diverge count <$> parsed →
          JS.truthy (Model.upstream b) = true →
          Model.ahead b = count (Model.upstream b) (Model.name b)
          ∧ Model.behind b = count (Model.name b) (Model.upstream b))
  ∧ (∀ b, b ∈ Spec.diverge count <$> parsed →
          JS.truthy (Model.upstream b) = false →
          Model.ahead b = 0 ∧ Model.behind b = 0).
Proof.
  intros r. subst r. unfold Run.run. rewrite getBranches_runWith.
  cbv zeta. rewrite Hlist, Hparse.
  rewrite (countAll_answered gw _ count parsed Hcount). cbn.
  split; [reflexivity|]. split; [reflexivity|]. split; [reflexivity|]. split.
  - intros b (x & -> & Hx)%list_elem_of_fmap. unfold Spec.diverge.
    destruct (JS.truthy (Model.upstream x)) eqn:E; [done|]. congruence.
  - intros b (x & -> & Hx)%list_elem_of_fmap. unfold Spec.diverge.
    destruct (JS.truthy (Model.upstream x)) eqn:E.
    + unfold Model.upstream, Model.prop. simpl. fold (Model.prop x "upstream").
      fold (Model.upstream x). congruence.
    + intros _. by apply (parseBranches_inr keys out parsed Hparse).
Qed.

Lemma getBranches_assigns_divergence_witness :
  let gw := Samples.gateway (Some Samples.featureListing) Samples.twoFive in
  let r := Run.run gw (RepositoryService.getBranches Samples.schema) Samples.sessionOne in
  Run.result r = inr tt
  ∧ State.branches (Run.final r)
    = Some (Spec.diverge Samples.twoFiveCount <$> Samples.featureParsed)
  ∧ Run.calls r
    = Git.GetBranches (RepositoryService.getPath Samples.sessionOne)
      :: flat_map (Spec.countCalls (RepositoryService.getPath Samples.sessionOne))
                  Samples.featureParsed
  ∧ (∀ b, b ∈ Spec.diverge Samples.twoFiveCount <$> Samples.featureParsed →
          JS.truthy (Model.upstream b) = true →
          Model.ahead b = Samples.twoFiveCount (Model.upstream b) (Model.name b)
          ∧ Model.behind b = Samples.twoFiveCount (Model.name b) (Model.upstream b))
  ∧ (∀ b, b ∈ Spec.diverge Samples.twoFiveCount <$> Samples.featureParsed →
          JS.truthy (Model.upstream b) = false →
          Model.ahead b = 0 ∧ Model.behind b = 0).
Proof.
  apply (getBranches_assigns_divergence
           Samples.schema
           (Samples.gateway (Some Samples.featureListing) Samples.twoFive)
           Samples.sessionOne (Some Samples.featureListing)
           Samples.featureParsed Samples.twoFiveCount).
  - reflexivity.
  - reflexivity.
  - intros b Hb Ht. split; reflexivity.
Defined.

(** C7, as the code has it.  When the collection contains the branch
    feature with upstream origin/feature, the count from origin/feature
    excluding feature is 2 and the count from feature excluding
    origin/feature is 5, the refresh publishes a collection in which that
    branch, and every branch with this name and upstream, has ahead = 2 and
    behind = 5. *)
Theorem getBranches_divergence_example
        (keys : list string) (gw : Git.Gateway) (s : State.Session)
        (out : JS.text) (parsed : Model.Branches) (count : JS.text → JS.text → Z)
        (feature : Model.Branch)
        (Hlist : Git.getBranches gw (RepositoryService.getPath s) = inr out)
        (Hparse : Parsers.parseBranches keys out = inr parsed)
        (Hcount : ∀ b, b ∈ parsed →
                       Reference.answered gw (RepositoryService.getPath s) count b)
        (Hin : feature ∈ parsed)
        (Hname : Model.name feature = Some "feature")
        (Hupstream : Model.upstream feature = Some "origin/feature")
        (Htwo : count (Some "origin/feature") (Some "feature") = 2)
        (Hfive : count (Some "feature") (Some "origin/feature") = 5) :
  ∃ published : Model.Branches,
    State.branches (Run.final (Run.run gw (RepositoryService.getBranches keys) s))
    = Some published
    ∧ (∃ b, b ∈ published ∧ Model.fields b = Model.fields feature
            ∧ Model.ahead b = 2 ∧ Model.behind b = 5)
    ∧ (∀ b, b ∈ published →
            Model.name b = Some "feature" →
            Model.upstream b = Some "origin/feature" →
            Model.ahead b = 2 ∧ Model.behind b = 5).
Proof.
  exists (Spec.diverge count <$> parsed).
  unfold Run.run. rewrite getBranches_runWith.
  cbv zeta. rewrite Hlist, Hparse.
  rewrite (countAll_answered gw _ count parsed Hcount). cbn.
  split; [reflexivity|]. split.
  - exists (Spec.diverge count feature). split.
    + apply list_elem_of_fmap. eauto.
    + unfold Spec.diverge. rewrite Hupstream, Hname. simpl.
      by rewrite Htwo, Hfive.
  - intros b (x & -> & Hx)%list_elem_of_fmap.
    assert (Model.name (Spec.diverge count x) = Model.name x) as ->
      by (unfold Spec.diverge; by destruct (JS.truthy _)).
    assert (Model.upstream (Spec.diverge count x) = Model.upstream x) as ->
      by (unfold Spec.diverge; by destruct (JS.truthy _)).
    intros Hn Hu. unfold Spec.diverge. rewrite Hu, Hn. simpl.
    by rewrite Htwo, Hfive.
Qed.

Lemma getBranches_divergence_example_witness :
  ∃ published : Model.Branches,
    State.branches
      (Run.final
         (Run.run (Samples.gateway (Some Samples.featureListing) Samples.twoFive)
                  (RepositoryService.getBranches Samples.schema) Samples.sessionOne))
    = Some published
    ∧ (∃ b, b ∈ published
            ∧ Model.fields b
              = Model.fields (Parsers.parseEntry Samples.schema Samples.featureListing)
            ∧ Model.ahead b = 2 ∧ Model.behind b = 5)
    ∧ (∀ b, b ∈ published →
            Model.name b = Some "feature" →
            Model.upstream b = Some "origin/feature" →
            Model.ahead b = 2 ∧ Model.behind b = 5).
Proof.
  apply (getBranches_divergence_example
           Samples.schema
           (Samples.gateway (Some Samples.featureListing) Samples.twoFive)
           Samples.sessionOne (Some Samples.featureListing)
           Samples.featureParsed Samples.twoFiveCount
           (Parsers.parseEntry Samples.schema Samples.featureListing)).
  - reflexivity.
  - reflexivity.
  - intros b Hb Ht. split; reflexivity.
  - vm_compute. left.
  - reflexivity.
  - reflexivity.
  - reflexivity.
  - reflexivity.
Defined.

(** C7 fails as stated: with the listing of the branch feature tracking
    origin/feature, and a gateway that counts 2 from origin/feature
    excluding feature and 5 from feature excluding origin/feature, the
    published branch has ahead = 2 and behind = 5, not ahead = 5 and
    behind = 2. *)
Lemma getBranches_example_ahead_is_two :
  Git.countRevList (Samples.gateway (Some Samples.featureListing) Samples.twoFive)
                   (Some "/repos/one") (Some "origin/feature") (Some "feature") = inr 2
  ∧ Git.countRevList (Samples.gateway (Some Samples.featureListing) Samples.twoFive)
                     (Some "/repos/one") (Some "feature") (Some "origin/feature") = inr 5
  ∧ (fun b => (Model.name b, Model.upstream b, Model.ahead b, Model.behind b))
      <$> default [] (State.branches
                        (Run.final
                           (Run.run (Samples.gateway (Some Samples.featureListing)
                                                     Samples.twoFive)
                                    (RepositoryService.getBranches Samples.schema)
                                    Samples.sessionOne)))
    = [(Some "feature", Some "origin/feature", 2, 5)].
Proof. do 2 (split; [vm_compute; reflexivity|]). vm_compute. reflexivity. Qed.

(** C5, as the code has it.  When the branch command answers with an empty
    or absent text, the refresh is fulfilled without an error, no field
    changes and nothing is published: the parser is not called and the
    previous collection stays. *)
Theorem getBranches_empty_listing_is_silent
        (keys : list string) (gw : Git.Gateway) (s : State.Session) (out : JS.text)
        (Hlist : Git.getBranches gw (RepositoryService.getPath s) = inr out)
        (Hfalsy : JS.truthy out = false) :
  Run.run gw (RepositoryService.getBranches keys) s
  = {| Run.final := s;
       Run.calls := [Git.GetBranches (RepositoryService.getPath s)];
       Run.pending := [];
       Run.result := inr tt |}.
Proof.
  unfold Run.run. rewrite getBranches_runWith. cbv zeta.
  rewrite Hlist, parseBranches_falsy by done. reflexivity.
Qed.

Lemma getBranches_empty_listing_is_silent_witness :
  Run.run (Samples.gateway (Some "") Samples.twoFive)
          (RepositoryService.getBranches Samples.schema) Samples.sessionOne
  = {| Run.final := Samples.sessionOne;
       Run.calls := [Git.GetBranches (RepositoryService.getPath Samples.sessionOne)];
       Run.pending := [];
       Run.result := inr tt |}.
Proof.
  apply (getBranches_empty_listing_is_silent
           Samples.schema (Samples.gateway (Some "") Samples.twoFive)
           Samples.sessionOne (Some "")).
  - reflexivity.
  - reflexivity.
Defined.

(** C5 fails as stated: when the branch command answers with the empty
    text, or with no text at all, the refresh does not fail with the parse
    error; its promise is fulfilled. *)
Lemma getBranches_empty_listing_no_error :
  Run.result (Run.run (Samples.gateway (Some "") Samples.twoFive)
                      (RepositoryService.getBranches Samples.schema) Samples.sessionOne)
  = inr tt
  ∧ Run.result (Run.run (Samples.gateway None Samples.twoFive)
                        (RepositoryService.getBranches Samples.schema) Samples.sessionOne)
    = inr tt
  ∧ Run.result (Run.run (Samples.gateway (Some "") Samples.twoFive)
                        (RepositoryService.getBranches Samples.schema) Samples.sessionOne)
    ≠ inl Parsers.ParseError.
Proof. repeat split; try reflexivity. discriminate. Qed.

(** C4, as the code has it.  When a counting call of a tracked branch is
    rejected, after the calls of the branches before it were fulfilled, the
    refresh is rejected with that error; no field changes, so nothing is
    published and the previous collection stays; and the gateway calls stop
    at the rejected one, so that no later branch is counted. *)
Theorem getBranches_count_failure_rejects
        (keys : list string) (gw : Git.Gateway) (s : State.Session)
        (out : JS.text) (pre post : list Model.Branch) (b : Model.Branch)
        (count : JS.text → JS.text → Z) (e : JS.jsError)
        (Hlist : Git.getBranches gw (RepositoryService.getPath s) = inr out)
        (Hparse : Parsers.parseBranches keys out = inr (pre ++ b :: post)%list)
        (Hpre : ∀ x, x ∈ pre →
                     Reference.answered gw (RepositoryService.getPath s) count x)
        (Hb : JS.truthy (Model.upstream b) = true)
        (Hfail : match Git.countRevList gw (RepositoryService.getPath s)
                                        (Model.upstream b) (Model.name b) with
                 | inl e' => e' = e
                 | inr _ => Git.countRevList gw (RepositoryService.getPath s)
                                             (Model.name b) (Model.upstream b) = inl e
                 end) :
  let p := RepositoryService.getPath s in
  let r := Run.run gw (RepositoryService.getBranches keys) s in
  Run.result r = inl e
  ∧ Run.final r = s
  ∧ Run.calls r
    = (Git.GetBranches p
       :: flat_map (Spec.countCalls p) pre
       ++ match Git.countRevList gw p (Model.upstream b) (Model.name b) with
          | inl _ => [Git.CountRevList p (Model.upstream b) (Model.name b)]
          | inr _ => Spec.countCalls p b
          end)%list.
Proof.
  intros p r. subst p r. unfold Run.run. rewrite getBranches_runWith.
  cbv zeta. rewrite Hlist, Hparse.
  rewrite (countAll_failure gw _ count pre post b e Hpre Hb Hfail).
  cbn -[take drop]. rewrite take_nil. done.
Qed.

Lemma getBranches_count_failure_rejects_witness :
  let gw := Samples.gateway (Some Samples.twoTracked) Samples.featureFails in
  let p := RepositoryService.getPath Samples.sessionOne in
  let b := Parsers.parseEntry Samples.schema Samples.featureListing in
  let r := Run.run gw (RepositoryService.getBranches Samples.schema) Samples.sessionOne in
  Run.result r = inl Samples.gitFailure
  ∧ Run.final r = Samples.sessionOne
  ∧ Run.calls r
    = (Git.GetBranches p
       :: flat_map (Spec.countCalls p) []
       ++ match Git.countRevList gw p (Model.upstream b) (Model.name b) with
          | inl _ => [Git.CountRevList p (Model.upstream b) (Model.name b)]
          | inr _ => Spec.countCalls p b
          end)%list.
Proof.
  apply (getBranches_count_failure_rejects
           Samples.schema
           (Samples.gateway (Some Samples.twoTracked) Samples.featureFails)
           Samples.sessionOne (Some Samples.twoTracked)
           []
           [Parsers.parseEntry Samples.schema "fix%x00origin/fix%x00778899%x00"]
           (Parsers.parseEntry Samples.schema Samples.featureListing)
           Samples.twoFiveCount Samples.gitFailure).
  - reflexivity.
  - vm_compute. reflexivity.
  - intros x Hx. inversion Hx.
  - reflexivity.
  - reflexivity.
Defined.

(** C4 fails as stated: with two tracked branches, feature and fix, and a
    gateway that rejects the counting calls of feature only, the refresh is
    rejected with the gateway's error, the branch fix is never counted, the
    published collection is the one from before the refresh and nothing is
    pushed to the subscribers. *)
Lemma getBranches_first_failure_aborts :
  let gw := Samples.gateway (Some Samples.twoTracked) Samples.featureFails in
  let r := Run.run gw (RepositoryService.getBranches Samples.schema) Samples.sessionOne in
  Model.name <$> Samples.twoTrackedParsed = [Some "feature"; Some "fix"]
  ∧ Git.countRevList gw (Some "/repos/one") (Some "origin/fix") (Some "fix") = inr 1
  ∧ Git.countRevList gw (Some "/repos/one") (Some "fix") (Some "origin/fix") = inr 1
  ∧ Run.result r = inl Samples.gitFailure
  ∧ Run.calls r
    = [Git.GetBranches (Some "/repos/one");
       Git.CountRevList (Some "/repos/one") (Some "origin/feature") (Some "feature")]
  ∧ State.branches (Run.final r) = State.branches Samples.sessionOne
  ∧ State.emitted (Run.final r) = [].
Proof.
  intros gw r. do 6 (split; [vm_compute; reflexivity|]). vm_compute. reflexivity.
Qed.

(** C9, as the code has it.  A refresh is not tied to the identity it was
    started under.  Whatever [setId] calls happen while it is suspended, it
    settles as it would without them, issues the same gateway calls, and
    leaves the same value in the published collection; the identity at the
    end is the one those [setId] calls have set. *)
Theorem getBranches_ignores_identity_changes :
  ∀ (keys : list string) (gw : Git.Gateway) (schedule : list (list string))
    (s : State.Session),
    let r := Run.runWith gw (RepositoryService.getBranches keys) schedule s [] in
    let r0 := Run.run gw (RepositoryService.getBranches keys) s in
    Run.result r = Run.result r0
    ∧ Run.calls r = Run.calls r0
    ∧ State.branches (Run.final r) = State.branches (Run.final r0)
    ∧ State.currentId (Run.final r)
      = State.currentId
          (Run.interfere (concat (take (length (Run.calls r)) schedule)) s).
Proof.
  intros keys gw schedule s r r0. subst r r0. unfold Run.run.
  rewrite !getBranches_runWith. cbv zeta.
  assert (Run.interfere (hd [] schedule) s
          = Run.interfere (concat (take 1 schedule)) s) as Hone.
  { destruct schedule; simpl; by rewrite ?app_nil_r. }
  destruct (Git.getBranches gw (RepositoryService.getPath s)) as [e|out].
  { cbn -[take]. rewrite Hone, interfere_branches. done. }
  destruct (Parsers.parseBranches keys out) as [e|parsed].
  { cbn -[take]. rewrite Hone, interfere_branches. done. }
  destruct (Reference.countAll gw (RepositoryService.getPath s) parsed) as [cs [e|bs]];
    cbn -[take drop]; rewrite ?interfere_branches, ?take_nil; done.
Qed.

(** C9 fails as stated: a refresh is started on a session of identity 1,
    [setId "2"] is called while the branch command is pending, and the
    listing of repository 1 then arrives.  At the end the identity is 2 and
    the published collection is the one computed from that listing; it was
    pushed to the subscribers after the identity had changed. *)
Lemma getBranches_publishes_stale_result :
  let gw := Samples.gateway (Some Samples.featureListing) Samples.twoFive in
  let r := Run.runWith gw (RepositoryService.getBranches Samples.schema)
                       [["2"]] Samples.sessionOne [] in
  State.currentId Samples.sessionOne = Some (JS.Num 1)
  ∧ Run.calls r
    = [Git.GetBranches (Some "/repos/one");
       Git.CountRevList (Some "/repos/one") (Some "origin/feature") (Some "feature");
       Git.CountRevList (Some "/repos/one") (Some "feature") (Some "origin/feature")]
  ∧ Run.result r = inr tt
  ∧ State.currentId (Run.final r) = Some (JS.Num 2)
  ∧ State.branches (Run.final r)
    = Some (Spec.diverge Samples.twoFiveCount <$> Samples.featureParsed)
  ∧ State.emitted (Run.final r)
    = [State.LoadedNext false;
       State.BranchesNext (Some (Spec.diverge Samples.twoFiveCount <$> Samples.featureParsed))].
Proof.
  intros gw r. do 5 (split; [vm_compute; reflexivity|]). vm_compute. reflexivity.
Qed.

(* ===================================================================== *)
(** * Splitting and replacing *)
(* ===================================================================== *)

Section TextFacts.

Lemma prefix_inv (sep s : string) :
  String.prefix sep s = true → ∃ rest, s = sep ++ rest.
Proof.
  revert s. induction sep as [|a sep IH]; intros s H.
  - by exists s.
  - destruct s as [|b s]; [done|]. simpl in H.
    destruct (ascii_dec a b) as [<-|]; [|done].
    destruct (IH s H) as [rest ->]. by exists rest.
Qed.

Lemma prefix_app_self (sep rest : string) : String.prefix sep (sep ++ rest) = true.
Proof.
  induction sep as [|a sep IH]; simpl; [by destruct rest|].
  by destruct (ascii_dec a a).
Qed.

Lemma splitFrom_skip (sep pre s : string) :
  JS.splitFrom sep (String.length pre) (pre ++ s) = JS.splitFrom sep 0 s.
Proof. induction pre as [|c pre IH]; [done|]. simpl. apply IH. Qed.

Lemma concat_cons_nonempty (by_ x : string) (l : list string) :
  l ≠ [] → String.concat by_ (x :: l) = x ++ by_ ++ String.concat by_ l.
Proof. by destruct l. Qed.

(** The replacement, read from left to right: a separator at the front is
    replaced and the scan goes on behind it; any other character is kept. *)
Lemma replaceAll_empty (sep by_ : string) : JS.replaceAll sep by_ "" = "".
Proof. reflexivity. Qed.

Lemma replaceAll_match (sep by_ rest : string) :
  sep ≠ "" → JS.replaceAll sep by_ (sep ++ rest) = by_ ++ JS.replaceAll sep by_ rest.
Proof.
  intros Hsep. destruct sep as [|a sep]; [done|].
  unfold JS.replaceAll, JS.split.
  change (String a sep ++ rest) with (String a (sep ++ rest)).
  cbn [JS.splitFrom].
  change (String a (sep ++ rest)) with (String a sep ++ rest).
  rewrite prefix_app_self. cbn [String.length Nat.pred].
  rewrite splitFrom_skip.
  rewrite concat_cons_nonempty by apply splitFrom_nonempty. done.
Qed.

Lemma replaceAll_keep (sep by_ : string) (c : ascii) (s : string) :
  String.prefix sep (String c s) = false →
  JS.replaceAll sep by_ (String c s) = String c (JS.replaceAll sep by_ s).
Proof.
  intros Hp. unfold JS.replaceAll, JS.split. cbn [JS.splitFrom]. rewrite Hp.
  destruct (JS.splitFrom sep 0 s) as [|piece pieces] eqn:E;
    [by apply splitFrom_nonempty in E|].
  by destruct pieces.
Qed.

Lemma length_append (a b : string) :
  String.length (a ++ b) = (String.length a + String.length b)%nat.
Proof. induction a as [|c a IH]; simpl; [done|]. by rewrite IH. Qed.

(** Induction along the scan. *)
Lemma scan_ind (sep : string) (Hsep : sep ≠ "") (P : string → Prop) :
  P "" →
  (∀ rest, P rest → P (sep ++ rest)) →
  (∀ c s, String.prefix sep (String c s) = false → P s → P (String c s)) →
  ∀ s, P s.
Proof.
  intros Hnil Hmatch Hkeep s.
  remember (String.length s) as n eqn:Hn. revert s Hn.
  induction n as [n IH] using lt_wf_ind. intros s ->.
  destruct s as [|c s]; [done|].
  destruct (String.prefix sep (String c s)) eqn:Hp.
  - apply prefix_inv in Hp as [rest Hrest]. rewrite Hrest. apply Hmatch.
    apply (IH (String.length rest)); [|done].
    rewrite Hrest, length_append. destruct sep; [done|]. simpl. lia.
  - apply Hkeep; [done|]. apply (IH (String.length s)); [simpl; lia|done].
Qed.

Lemma concat_split (sep s : string) :
  sep ≠ "" → String.concat sep (JS.split sep s) = s.
Proof.
  intros Hsep. change (JS.replaceAll sep sep s = s).
  induction s as [|rest IH|c s Hp IH] using (scan_ind sep Hsep); try done.
  - by rewrite replaceAll_match, IH.
  - by rewrite replaceAll_keep, IH.
Qed.

Lemma replaceAll_absent (sep by_ s : string) :
  Text.occurs sep s = false → JS.replaceAll sep by_ s = s.
Proof.
  induction s as [|c s IH]; [done|]. cbn [Text.occurs].
  intros [Hp Ho]%orb_false_elim. by rewrite replaceAll_keep, IH.
Qed.

Lemma prefix_twoBackslashes (c : ascii) (s : string) :
  String.prefix Text.twoBackslashes (String c s) = true →
  c = "\"%char ∧ String.prefix "\" s = true.
Proof.
  unfold Text.twoBackslashes. cbn [String.prefix].
  destruct (ascii_dec "\" c) as [<-|]; [|done]. intros H. split; [done|exact H].
Qed.

Lemma replaceAll_backslashes (s : string) :
  Text.occurs Text.twoBackslashes (JS.replaceAll Text.twoBackslashes "/" s) = false
  ∧ (String.prefix "\" (JS.replaceAll Text.twoBackslashes "/" s) = true →
     String.prefix "\" s = true).
Proof.
  assert (Text.twoBackslashes ≠ "") as Hsep by done.
  induction s as [|rest [IH1 IH2]|c s Hp [IH1 IH2]]
    using (scan_ind Text.twoBackslashes Hsep); try done.
  - rewrite replaceAll_match by done. split; [|done].
    change ("/" ++ ?x) with (String "/" x). cbn [Text.occurs]. by rewrite IH1.
  - rewrite replaceAll_keep by done. split.
    + cbn [Text.occurs]. rewrite IH1, orb_false_r.
      destruct (String.prefix Text.twoBackslashes (String c (JS.replaceAll _ "/" s)))
        eqn:E; [|done].
      apply prefix_twoBackslashes in E as [-> E]. apply IH2 in E.
      unfold Text.twoBackslashes in Hp. cbn [String.prefix] in Hp.
      destruct (ascii_dec "\" "\"); [congruence|done].
    + cbn [String.prefix]. destruct (ascii_dec "\" c); [|done].
      intros _. by destruct s.
Qed.

End TextFacts.

(* ===================================================================== *)
(** * Further properties of the parser *)
(* ===================================================================== *)

Section ParserMore.
Import Model.

Lemma filter_all {A : Type} (f : A → bool) (l : list A) :
  (∀ x, x ∈ l → f x = true) → List.filter f l = l.
Proof.
  induction l as [|x l IH]; intros Hall; [done|]. simpl.
  rewrite (Hall x) by left. f_equal. apply IH. intros y Hy. apply Hall. by right.
Qed.

Lemma removeUpstreams_elem (entries : list Branch) (r : Branch) :
  r ∈ Parsers.removeUpstreams entries
  ↔ r ∈ entries
    ∧ JS.includes
        (List.map upstream (List.filter (fun e => JS.truthy (upstream e)) entries))
        (name r) = false.
Proof.
  unfold Parsers.removeUpstreams.
  rewrite !list_elem_of_In, filter_In, negb_true_iff. done.
Qed.

Lemma includes_false (l : list JS.text) (v : JS.text) :
  JS.includes l v = false ↔ v ∉ l.
Proof. by rewrite <- includes_elem_of, not_true_iff_false. Qed.

Lemma assignKeys_agree (ks : list string) (ix : nat) (d1 d2 : list string)
      (entry : gmap string JS.text) :
  (∀ i, (ix ≤ i < ix + length ks)%nat → d1 !! i = d2 !! i) →
  Parsers.assignKeys ks ix d1 entry = Parsers.assignKeys ks ix d2 entry.
Proof.
  revert ix entry. induction ks as [|k ks IH]; intros ix entry Heq; [done|].
  simpl in *. rewrite (Heq ix) by lia. apply IH. intros i Hi. apply Heq. lia.
Qed.

Lemma parseEntry_props (keys : list string) (line : string) :
  NoDup keys →
  prop (Parsers.parseEntry keys line) <$> keys
  = (fun ix => JS.split Parsers.delimiter line !! ix) <$> seq 0 (length keys).
Proof.
  intros Hnd. apply list_eq. intros i.
  rewrite !list_lookup_fmap.
  destruct (keys !! i) as [k|] eqn:Hk; simpl.
  - rewrite lookup_seq_lt by (by eapply lookup_lt_Some). simpl.
    unfold prop, Parsers.parseEntry. simpl.
    by rewrite (assignKeys_lookup keys 0 _ _ i k).
  - rewrite lookup_seq_ge; [done|]. by apply lookup_ge_None.
Qed.

Lemma fmap_lookup_seq {A : Type} (l : list A) :
  (fun ix => l !! ix) <$> seq 0 (length l) = Some <$> l.
Proof.
  apply list_eq. intros i. rewrite !list_lookup_fmap.
  destruct (l !! i) as [x|] eqn:Hx; simpl.
  - rewrite lookup_seq_lt by (by eapply lookup_lt_Some). simpl. by rewrite Hx.
  - rewrite lookup_seq_ge; [done|]. by apply lookup_ge_None.
Qed.

End ParserMore.

(** X1.  After the deduplication no kept record has a name that is the
    non-empty upstream of any record of the input, kept or not; so no
    two records of the result are a branch and the remote branch it tracks,
    and a record whose name is its own non-empty upstream is never kept. *)
Theorem removeUpstreams_no_name_is_an_upstream
        (entries : list Model.Branch) (a b : Model.Branch)
        (Ha : a ∈ Parsers.removeUpstreams entries)
        (Hb : b ∈ entries)
        (Htracked : JS.truthy (Model.upstream b) = true) :
  Model.name a ≠ Model.upstream b.
Proof.
  apply removeUpstreams_elem in Ha as [_ Ha]. apply includes_false in Ha.
  intros Heq. apply Ha. rewrite Heq. apply elem_of_withUpstream. eauto.
Qed.

Lemma removeUpstreams_no_name_is_an_upstream_witness :
  Model.name (Samples.named "origin/main")
  ≠ Model.upstream (Samples.tracking "feature" "origin/feature").
Proof.
  apply (removeUpstreams_no_name_is_an_upstream Samples.fourRecords).
  - vm_compute. right. left.
  - vm_compute. right. right. left.
  - reflexivity.
Defined.

(** X2.  The deduplication is idempotent: applied to its own result it
    removes nothing more. *)
Theorem removeUpstreams_idempotent :
  ∀ entries : list Model.Branch,
    Parsers.removeUpstreams (Parsers.removeUpstreams entries)
    = Parsers.removeUpstreams entries.
Proof.
  intros entries.
  unfold Parsers.removeUpstreams at 1. apply filter_all. intros r Hr.
  apply negb_true_iff, includes_false. intros Hin.
  apply elem_of_withUpstream in Hin as (Ht & x & Hx & Hux).
  apply removeUpstreams_elem in Hr as [_ Hr]. apply includes_false in Hr.
  apply Hr. apply elem_of_withUpstream. split; [done|].
  exists x. split; [|done]. by apply removeUpstreams_elem in Hx as [Hx _].
Qed.

(** X3.  Round trip of one record: when the schema keys are distinct and a
    line has exactly as many fields as the schema has keys, writing the
    fields of the parsed record in schema order, with the delimiter between
    them, gives the line back. *)
Theorem parseEntry_round_trip
        (keys : list string) (line : string)
        (Hkeys : NoDup keys)
        (Hwidth : length (JS.split Parsers.delimiter line) = length keys) :
  String.concat Parsers.delimiter
    ((fun key => default EmptyString (Model.prop (Parsers.parseEntry keys line) key))
       <$> keys)
  = line.
Proof.
  change (String.concat Parsers.delimiter
            ((default EmptyString ∘ Model.prop (Parsers.parseEntry keys line)) <$> keys)
          = line).
  rewrite list_fmap_compose, parseEntry_props by done.
  rewrite <- Hwidth, fmap_lookup_seq, <- list_fmap_compose.
  rewrite (list_fmap_ext (default EmptyString ∘ Some) id
                         (JS.split Parsers.delimiter line)) by done.
  rewrite list_fmap_id. by apply concat_split.
Qed.

Lemma parseEntry_round_trip_witness :
  String.concat Parsers.delimiter
    ((fun key => default EmptyString
                   (Model.prop (Parsers.parseEntry Samples.schema Samples.featureListing) key))
       <$> Samples.schema)
  = Samples.featureListing.
Proof.
  apply (parseEntry_round_trip Samples.schema Samples.featureListing).
  - apply (bool_decide_unpack _). vm_compute. exact I.
  - reflexivity.
Defined.

(** X4.  Fields beyond the width of the schema are ignored: two lines
    whose first fields, as many as the schema has keys, are the same give
    the same record. *)
Theorem parseEntry_ignores_surplus_fields
        (keys : list string) (line1 line2 : string)
        (Hsame : take (length keys) (JS.split Parsers.delimiter line1)
                 = take (length keys) (JS.split Parsers.delimiter line2)) :
  Parsers.parseEntry keys line1 = Parsers.parseEntry keys line2.
Proof.
  unfold Parsers.parseEntry. f_equal. apply assignKeys_agree.
  intros i Hi. simpl in Hi.
  rewrite <- (lookup_take_lt (JS.split Parsers.delimiter line1) (length keys) i) by lia.
  rewrite <- (lookup_take_lt (JS.split Parsers.delimiter line2) (length keys) i) by lia.
  by rewrite Hsame.
Qed.

Lemma parseEntry_ignores_surplus_fields_witness :
  Parsers.parseEntry Samples.schema "main%x00origin/main%x00a1b2c3%x00*%x00extra"
  = Parsers.parseEntry Samples.schema "main%x00origin/main%x00a1b2c3%x00*".
Proof.
  apply (parseEntry_ignores_surplus_fields Samples.schema).
  reflexivity.
Defined.

(** X5.  When the schema has no key named upstream, no record has an
    upstream and the deduplication removes nothing: every non-empty text
    gives exactly one record per line. *)
Theorem parseBranches_without_upstream_key
        (keys : list string) (out : string)
        (Hkey : "upstream" ∉ keys)
        (Hout : out ≠ EmptyString) :
  Parsers.parseBranches keys (Some out)
  = inr (Parsers.parseEntries keys (JS.split Parsers.newline out))
  ∧ ∃ parsed, Parsers.parseBranches keys (Some out) = inr parsed
              ∧ length parsed = S (Spec.lineFeeds out).
Proof.
  assert (Parsers.parseBranches keys (Some out)
          = inr (Parsers.parseEntries keys (JS.split Parsers.newline out))) as Heq.
  { destruct out as [|c out]; [done|]. rewrite parseBranches_truthy. f_equal.
    unfold Parsers.removeUpstreams.
    assert (List.filter (fun e => JS.truthy (Model.upstream e))
              (Parsers.parseEntries keys (JS.split Parsers.newline (String c out))) = [])
      as ->.
    { rewrite parseEntries_map.
      induction (JS.split Parsers.newline (String c out)) as [|l ls IH]; [done|].
      simpl. unfold Model.upstream at 1, Model.prop, Parsers.parseEntry. simpl.
      rewrite assignKeys_fresh by done. rewrite lookup_empty. simpl. apply IH. }
    by apply filter_all. }
  split; [done|]. eexists. split; [done|].
  rewrite parseEntries_map, length_fmap. apply split_newline_length.
Qed.

Lemma parseBranches_without_upstream_key_witness :
  Parsers.parseBranches ["sha"; "name"] (Some Samples.mainThenBlank)
  = inr (Parsers.parseEntries ["sha"; "name"]
           (JS.split Parsers.newline Samples.mainThenBlank))
  ∧ ∃ parsed, Parsers.parseBranches ["sha"; "name"] (Some Samples.mainThenBlank)
              = inr parsed
              ∧ length parsed = S (Spec.lineFeeds Samples.mainThenBlank).
Proof.
  apply (parseBranches_without_upstream_key ["sha"; "name"] Samples.mainThenBlank).
  - apply (bool_decide_unpack _). vm_compute. exact I.
  - discriminate.
Defined.

(* ===================================================================== *)
(** * Further properties of the session *)
(* ===================================================================== *)

Section SessionMore.
Import State.

Lemma setId_currentBranch (id : string) (s : Session) :
  currentBranch (RepositoryService.setId id s) = currentBranch s.
Proof. unfold RepositoryService.setId. by destruct (JS.strictEq _ _). Qed.

Lemma setId_currentId (id : string) (s : Session) :
  currentId (RepositoryService.setId id s) = Some (JS.parseInt id).
Proof. unfold RepositoryService.setId. by destruct (JS.strictEq _ _). Qed.

Lemma setId_loaded (id : string) (s : Session) :
  loaded (RepositoryService.setId id s) = true → loaded s = true.
Proof. unfold RepositoryService.setId. by destruct (JS.strictEq _ _). Qed.

Lemma strictEq_refl (n : JS.jsnum) : n ≠ JS.NaN → JS.strictEq (Some n) n = true.
Proof.
  destruct n as [|b|z]; simpl; intros H; [done| |].
  - by destruct b.
  - apply Z.eqb_refl.
Qed.

Lemma interfere_currentBranch (ids : list string) (s : Session) :
  currentBranch (Run.interfere ids s) = currentBranch s.
Proof.
  revert s. induction ids as [|id ids IH]; intros s; [done|].
  simpl. rewrite IH. apply setId_currentBranch.
Qed.

Lemma interfere_repositorySetting (ids : list string) (s : Session) :
  repositorySetting (Run.interfere ids s) = repositorySetting s.
Proof.
  revert s. induction ids as [|id ids IH]; intros s; [done|].
  simpl. rewrite IH. apply setId_repositorySetting.
Qed.

Lemma interfere_loaded (ids : list string) (s : Session) :
  loaded (Run.interfere ids s) = true → loaded s = true.
Proof.
  revert s. induction ids as [|id ids IH]; intros s; [done|].
  simpl. intros H. by apply IH, setId_loaded in H.
Qed.

End SessionMore.

(** X6.  The path handed to the git commands never contains two
    consecutive backslashes, and replacing once more would not change it. *)
Theorem getPath_has_no_double_backslash
        (s : State.Session) (p : string)
        (Hpath : RepositoryService.getPath s = Some p) :
  Text.occurs Text.twoBackslashes p = false
  ∧ JS.replaceAll Text.twoBackslashes "/" p = p.
Proof.
  unfold RepositoryService.getPath in Hpath.
  destruct (State.repositorySetting s) as [setting|]; [|done].
  destruct (State.path setting) as [q|]; [|done].
  injection Hpath as <-.
  pose proof (replaceAll_backslashes q) as [Hocc _].
  split; [exact Hocc|]. by apply replaceAll_absent.
Qed.

Lemma getPath_has_no_double_backslash_witness :
  Text.occurs Text.twoBackslashes "C:/repos/two" = false
  ∧ JS.replaceAll Text.twoBackslashes "/" "C:/repos/two" = "C:/repos/two".
Proof.
  apply (getPath_has_no_double_backslash MoreSamples.sessionTwo "C:/repos/two").
  reflexivity.
Defined.

(** X7.  A stored path in which no two backslashes follow each other is
    handed to the git commands as it is: single backslashes are kept. *)
Theorem getPath_keeps_single_backslashes
        (s : State.Session) (setting : State.RepositorySetting) (p : string)
        (Hsetting : State.repositorySetting s = Some setting)
        (Hpath : State.path setting = Some p)
        (Hclean : Text.occurs Text.twoBackslashes p = false) :
  RepositoryService.getPath s = Some p.
Proof.
  unfold RepositoryService.getPath. rewrite Hsetting, Hpath.
  f_equal. by apply replaceAll_absent.
Qed.

Lemma getPath_keeps_single_backslashes_witness :
  RepositoryService.getPath
    (State.setRepositorySetting (Some {| State.path := Some "C:\repos\two" |})
                                MoreSamples.sessionTwo)
  = Some "C:\repos\two".
Proof.
  apply (getPath_keeps_single_backslashes
           _ {| State.path := Some "C:\repos\two" |} "C:\repos\two").
  - reflexivity.
  - reflexivity.
  - reflexivity.
Defined.

(** X8.  Calling [setId] twice with the same id is the same as calling it
    once exactly when the id parses to a number; with an id that does not
    parse every call pushes false to the subscribers of [loaded] again. *)
Theorem setId_idempotent_iff_parses :
  ∀ (id : string) (s : State.Session),
    RepositoryService.setId id (RepositoryService.setId id s)
    = RepositoryService.setId id s
    ↔ JS.parseInt id ≠ JS.NaN.
Proof.
  intros id s. split.
  - intros Heq Hnan.
    apply (f_equal State.emitted) in Heq. revert Heq.
    unfold RepositoryService.setId at 1. rewrite Hnan.
    replace (JS.strictEq _ JS.NaN) with false
      by (by destruct (State.currentId (RepositoryService.setId id s)) as [[| |?]|]).
    simpl. intros Heq. apply (f_equal length) in Heq.
    rewrite length_app in Heq. simpl in Heq. lia.
  - intros Hparse. unfold RepositoryService.setId at 1.
    rewrite setId_currentId, strictEq_refl by done. simpl.
    pose proof (setId_currentId id s) as Hid.
    destruct (RepositoryService.setId id s). simpl in *. by subst.
Qed.

(** X9.  Whatever ids are given to [setId] one after the other, the
    identity at the end is the parse of the last one; the branches
    collection, the current branch name and the repository setting are not
    touched; and [loaded] is never switched on. *)
Theorem setId_sequence :
  ∀ (ids : list string) (id : string) (s : State.Session),
    let s' := foldl (fun s id => RepositoryService.setId id s) s (ids ++ [id]) in
    State.currentId s' = Some (JS.parseInt id)
    ∧ State.branches s' = State.branches s
    ∧ State.currentBranch s' = State.currentBranch s
    ∧ State.repositorySetting s' = State.repositorySetting s
    ∧ (State.loaded s' = true → State.loaded s = true).
Proof.
  intros ids id s s'. subst s'. rewrite foldl_app. cbn [foldl].
  rewrite setId_currentId, setId_branches, setId_currentBranch,
    setId_repositorySetting.
  change (foldl _ s ids) with (Run.interfere ids s).
  rewrite interfere_branches, interfere_currentBranch, interfere_repositorySetting.
  repeat split. intros H. by apply setId_loaded, interfere_loaded in H.
Qed.

(** X10.  After [setId] with an id that differs from the identity,
    [loadRepositorySetting] stores the setting the settings service gives
    for the new identity; and after [unload] it stores again the setting of
    the identity, which [unload] keeps. *)
Theorem loadRepositorySetting_after_identity_change
        (getRepository : option JS.jsnum → option State.RepositorySetting)
        (id : string) (s : State.Session)
        (Hdiff : JS.strictEq (State.currentId s) (JS.parseInt id) = false) :
  State.repositorySetting
    (RepositoryService.loadRepositorySetting getRepository
       (RepositoryService.setId id s))
  = getRepository (Some (JS.parseInt id))
  ∧ State.repositorySetting
      (RepositoryService.loadRepositorySetting getRepository
         (RepositoryService.unload s))
    = getRepository (State.currentId s)
  ∧ State.repositorySetting (RepositoryService.unload s) = None.
Proof.
  unfold RepositoryService.loadRepositorySetting, RepositoryService.setId,
    RepositoryService.unload.
  rewrite Hdiff. done.
Qed.

Lemma loadRepositorySetting_after_identity_change_witness :
  State.repositorySetting
    (RepositoryService.loadRepositorySetting MoreSamples.settings
       (RepositoryService.setId "2" Samples.sessionOne))
  = MoreSamples.settings (Some (JS.parseInt "2"))
  ∧ State.repositorySetting
      (RepositoryService.loadRepositorySetting MoreSamples.settings
         (RepositoryService.unload Samples.sessionOne))
    = MoreSamples.settings (State.currentId Samples.sessionOne)
  ∧ State.repositorySetting (RepositoryService.unload Samples.sessionOne) = None.
Proof.
  apply (loadRepositorySetting_after_identity_change
           MoreSamples.settings "2" Samples.sessionOne).
  reflexivity.
Defined.

(* ===================================================================== *)
(** * Loading and reloading *)
(* ===================================================================== *)

Section LoadFacts.
Import State Async Run.
Variable gw : Git.Gateway.

(** [getCurrentBranch] under any schedule, in closed form. *)
Lemma getCurrentBranch_runWith (schedule : list (list string)) (s : Session)
      (trace : list Git.Call) :
  runWith gw RepositoryService.getCurrentBranch schedule s trace
  = let p := RepositoryService.getPath s in
    let s' := interfere (hd [] schedule) s in
    match Git.getCurrentBranch gw p with
    | inl e => mkOutcome s' (trace ++ [Git.GetCurrentBranch p]) (tl schedule) (inl e)
    | inr answer =>
        if JS.truthy answer
        then mkOutcome (setCurrentBranch answer s') (trace ++ [Git.GetCurrentBranch p])
                       (tl schedule) (inr answer)
        else mkOutcome s' (trace ++ [Git.GetCurrentBranch p]) (tl schedule)
                       (inr (currentBranch s'))
    end.
Proof.
  unfold RepositoryService.getCurrentBranch, mbind, Task_bind, get,
    awaitGetCurrentBranch, update, mret, Task_ret.
  cbn [bind runWith].
  destruct (Git.getCurrentBranch gw (RepositoryService.getPath s)) as [e|answer];
    [done|].
  by destruct (JS.truthy answer).
Qed.

(** [loadGitRepository] under any schedule, in closed form. *)
Lemma loadGitRepository_runWith (schedule : list (list string)) (s : Session) :
  runWith gw RepositoryService.loadGitRepository schedule s []
  = if loaded s then mkOutcome s [] schedule (inr tt)
    else
      let p := RepositoryService.getPath s in
      let s' := interfere (hd [] schedule) (loadedNext false s) in
      match Git.getCurrentBranch gw p with
      | inl e => mkOutcome s' [Git.GetCurrentBranch p] (tl schedule) (inl e)
      | inr answer =>
          mkOutcome
            (loadedNext true (if JS.truthy answer then setCurrentBranch answer s' else s'))
            [Git.GetCurrentBranch p] (tl schedule) (inr tt)
      end.
Proof.
  unfold RepositoryService.loadGitRepository.
  unfold mbind, Task_bind, get, update, mret, Task_ret. cbn [bind runWith].
  destruct (loaded s); [done|]. cbn [negb bind runWith].
  rewrite runWith_bind, getCurrentBranch_runWith. cbv zeta.
  change (RepositoryService.getPath (loadedNext false s))
    with (RepositoryService.getPath s).
  destruct (Git.getCurrentBranch gw (RepositoryService.getPath s)) as [e|answer];
    [done|].
  by destruct (JS.truthy answer).
Qed.

End LoadFacts.

(** X11.  When the session is not loaded and the current-branch command is
    fulfilled, [loadGitRepository] issues that one call and ends with
    [loaded] true and the answer stored when it is non-empty; this holds
    under every schedule of [setId] calls, so the session ends loaded even
    when the identity was changed while the command was pending. *)
Theorem loadGitRepository_ends_loaded
        (gw : Git.Gateway) (schedule : list (list string)) (s : State.Session)
        (answer : JS.text)
        (Hunloaded : State.loaded s = false)
        (Hanswer : Git.getCurrentBranch gw (RepositoryService.getPath s) = inr answer) :
  let r := Run.runWith gw RepositoryService.loadGitRepository schedule s [] in
  Run.result r = inr tt
  ∧ Run.calls r = [Git.GetCurrentBranch (RepositoryService.getPath s)]
  ∧ State.loaded (Run.final r) = true
  ∧ State.currentBranch (Run.final r)
    = (if JS.truthy answer then answer else State.currentBranch s)
  ∧ State.currentId (Run.final r)
    = State.currentId (Run.interfere (hd [] schedule) s).
Proof.
  intros r. subst r. rewrite loadGitRepository_runWith, Hunloaded.
  cbv zeta. rewrite Hanswer. cbn [Run.result Run.calls Run.final].
  repeat split.
  - destruct (JS.truthy answer); simpl; [done|].
    by rewrite interfere_currentBranch.
  - assert (∀ ids x, State.currentId (Run.interfere ids (State.loadedNext false x))
                     = State.currentId (Run.interfere ids x)) as Hid.
    { intros ids. induction ids as [|i ids IH] using rev_ind; intros x; [done|].
      unfold Run.interfere. rewrite !foldl_app. cbn [foldl].
      by rewrite !setId_currentId. }
    destruct (JS.truthy answer); simpl; apply Hid.
Qed.

Lemma loadGitRepository_ends_loaded_witness :
  let gw := MoreSamples.gatewayCurrent (inr (Some "develop")) in
  let r := Run.runWith gw RepositoryService.loadGitRepository [["1"]]
                       MoreSamples.sessionTwo [] in
  Run.result r = inr tt
  ∧ Run.calls r = [Git.GetCurrentBranch (RepositoryService.getPath MoreSamples.sessionTwo)]
  ∧ State.loaded (Run.final r) = true
  ∧ State.currentBranch (Run.final r)
    = (if JS.truthy (Some "develop") then Some "develop"
       else State.currentBranch MoreSamples.sessionTwo)
  ∧ State.currentId (Run.final r)
    = State.currentId (Run.interfere (hd [] [["1"]]) MoreSamples.sessionTwo).
Proof.
  apply (loadGitRepository_ends_loaded
           (MoreSamples.gatewayCurrent (inr (Some "develop"))) [["1"]]
           MoreSamples.sessionTwo (Some "develop")).
  - reflexivity.
  - reflexivity.
Defined.

(** X12.  When the session is not loaded and the current-branch command is
    rejected, [loadGitRepository] is rejected with that error; [loaded]
    stays false, true is never pushed to its subscribers, and the stored
    branch name and every other field stay as they were. *)
Theorem loadGitRepository_rejected_stays_unloaded
        (gw : Git.Gateway) (s : State.Session) (e : JS.jsError)
        (Hunloaded : State.loaded s = false)
        (Hanswer : Git.getCurrentBranch gw (RepositoryService.getPath s) = inl e) :
  Run.run gw RepositoryService.loadGitRepository s
  = {| Run.final := State.loadedNext false s;
       Run.calls := [Git.GetCurrentBranch (RepositoryService.getPath s)];
       Run.pending := [];
       Run.result := inl e |}.
Proof.
  unfold Run.run. rewrite loadGitRepository_runWith, Hunloaded.
  cbv zeta. by rewrite Hanswer.
Qed.

Lemma loadGitRepository_rejected_stays_unloaded_witness :
  Run.run (MoreSamples.gatewayCurrent (inl Samples.gitFailure))
          RepositoryService.loadGitRepository MoreSamples.sessionTwo
  = {| Run.final := State.loadedNext false MoreSamples.sessionTwo;
       Run.calls := [Git.GetCurrentBranch
                       (RepositoryService.getPath MoreSamples.sessionTwo)];
       Run.pending := [];
       Run.result := inl Samples.gitFailure |}.
Proof.
  apply (loadGitRepository_rejected_stays_unloaded
           (MoreSamples.gatewayCurrent (inl Samples.gitFailure))
           MoreSamples.sessionTwo Samples.gitFailure).
  - reflexivity.
  - reflexivity.
Defined.

(** X13.  After a fulfilled [loadGitRepository] a second one does nothing:
    it issues no gateway call, changes no field and pushes nothing. *)
Theorem loadGitRepository_twice
        (gw : Git.Gateway) (s : State.Session)
        (Hfirst : Run.result (Run.run gw RepositoryService.loadGitRepository s) = inr tt) :
  Run.run gw RepositoryService.loadGitRepository
          (Run.final (Run.run gw RepositoryService.loadGitRepository s))
  = {| Run.final := Run.final (Run.run gw RepositoryService.loadGitRepository s);
       Run.calls := [];
       Run.pending := [];
       Run.result := inr tt |}.
Proof.
  revert Hfirst. unfold Run.run. rewrite (loadGitRepository_runWith gw [] s).
  destruct (State.loaded s) eqn:Hl.
  - intros _. cbn [Run.final]. by rewrite loadGitRepository_runWith, Hl.
  - cbv zeta.
    destruct (Git.getCurrentBranch gw (RepositoryService.getPath s)) as [e|answer];
      [done|].
    intros _. cbn [Run.final]. by rewrite loadGitRepository_runWith.
Qed.

Lemma loadGitRepository_twice_witness :
  let gw := MoreSamples.gatewayCurrent (inr (Some "develop")) in
  Run.run gw RepositoryService.loadGitRepository
          (Run.final (Run.run gw RepositoryService.loadGitRepository MoreSamples.sessionTwo))
  = {| Run.final :=
         Run.final (Run.run gw RepositoryService.loadGitRepository MoreSamples.sessionTwo);
       Run.calls := [];
       Run.pending := [];
       Run.result := inr tt |}.
Proof.
  apply (loadGitRepository_twice
           (MoreSamples.gatewayCurrent (inr (Some "develop"))) MoreSamples.sessionTwo).
  reflexivity.
Defined.

(** X14.  [reloadData] looks the setting of the identity up again even on
    a loaded session, asks for the current branch once, with the path of
    that setting, and when the command is fulfilled ends loaded with the
    fresh setting; the subscribers of [loaded] see false, false, true. *)
Theorem reloadData_reloads_setting
        (getRepository : option JS.jsnum → option State.RepositorySetting)
        (gw : Git.Gateway) (s : State.Session) (answer : JS.text)
        (Hanswer :
           Git.getCurrentBranch gw
             (RepositoryService.getPath
                (State.setRepositorySetting (getRepository (State.currentId s)) s))
           = inr answer) :
  Run.run gw (RepositoryService.reloadData getRepository) s
  = {| Run.final :=
         {| State.currentId := State.currentId s;
            State.repositorySetting := getRepository (State.currentId s);
            State.currentBranch :=
              if JS.truthy answer then answer else State.currentBranch s;
            State.loaded := true;
            State.branches := State.branches s;
            State.emitted :=
              State.emitted s ++ [State.LoadedNext false; State.LoadedNext false;
                                  State.LoadedNext true] |};
       Run.calls :=
         [Git.GetCurrentBranch
            (RepositoryService.getPath
               (State.setRepositorySetting (getRepository (State.currentId s)) s))];
       Run.pending := [];
       Run.result := inr tt |}.
Proof.
  unfold Run.run, RepositoryService.reloadData, mbind, Async.Task_bind, Async.update.
  cbn [Async.bind Run.runWith].
  rewrite loadGitRepository_runWith.
  unfold RepositoryService.loadRepositorySetting. cbn.
  change (RepositoryService.getPath _)
    with (RepositoryService.getPath
            (State.setRepositorySetting (getRepository (State.currentId s)) s)).
  rewrite Hanswer.
  assert (∀ l : list State.Emission,
             ((l ++ [State.LoadedNext false]) ++ [State.LoadedNext false])
             ++ [State.LoadedNext true]
             = l ++ [State.LoadedNext false; State.LoadedNext false;
                     State.LoadedNext true])%list as Happ
    by (intros l; by rewrite <- !app_assoc).
  destruct (JS.truthy answer);
    unfold State.loadedNext, State.setCurrentBranch, State.setRepositorySetting;
    cbn -[app]; rewrite Happ; reflexivity.
Qed.

Lemma reloadData_reloads_setting_witness :
  Run.run (MoreSamples.gatewayCurrent (inr (Some "develop")))
          (RepositoryService.reloadData MoreSamples.settings) Samples.sessionOne
  = {| Run.final :=
         {| State.currentId := State.currentId Samples.sessionOne;
            State.repositorySetting :=
              MoreSamples.settings (State.currentId Samples.sessionOne);
            State.currentBranch :=
              if JS.truthy (Some "develop") then Some "develop"
              else State.currentBranch Samples.sessionOne;
            State.loaded := true;
            State.branches := State.branches Samples.sessionOne;
            State.emitted :=
              State.emitted Samples.sessionOne
              ++ [State.LoadedNext false; State.LoadedNext false;
                  State.LoadedNext true] |};
       Run.calls :=
         [Git.GetCurrentBranch
            (RepositoryService.getPath
               (State.setRepositorySetting
                  (MoreSamples.settings (State.currentId Samples.sessionOne))
                  Samples.sessionOne))];
       Run.pending := [];
       Run.result := inr tt |}.
Proof.
  apply (reloadData_reloads_setting
           MoreSamples.settings (MoreSamples.gatewayCurrent (inr (Some "develop")))
           Samples.sessionOne (Some "develop")).
  reflexivity.
Defined.

(* ===================================================================== *)
(** * Further properties of the branch refresh *)
(* ===================================================================== *)

Section RefreshMore.
Import Model State.
Variable gw : Git.Gateway.
Variable p : JS.text.

(** A loop that came to its end issued both calls of every tracked branch
    and changed no text field. *)
Lemma countAll_inr (l bs : list Branch) :
  (Reference.countAll gw p l).2 = inr bs →
  fields <$> bs = fields <$> l
  ∧ (Reference.countAll gw p l).1 = flat_map (Spec.countCalls p) l.
Proof.
  revert bs. induction l as [|b l IH]; intros bs.
  - simpl. by intros [= <-].
  - cbn [Reference.countAll flat_map].
    assert (Spec.countCalls p b
            = if JS.truthy (upstream b)
              then [Git.CountRevList p (upstream b) (name b);
                    Git.CountRevList p (name b) (upstream b)]
              else []) as -> by done.
    destruct (JS.truthy (upstream b)).
    + destruct (Git.countRevList gw p (upstream b) (name b)) as [e|a]; [done|].
      destruct (Git.countRevList gw p (name b) (upstream b)) as [e|d]; [done|].
      destruct (Reference.countAll gw p l) as [cs [e|bs']]; [done|].
      cbn [snd fst Reference.consResult]. intros [= <-].
      destruct (IH bs' eq_refl) as [Hf Hc]. cbn [fst] in Hc. subst cs.
      split; [|done]. rewrite !fmap_cons. by rewrite Hf.
    + destruct (Reference.countAll gw p l) as [cs [e|bs']]; [done|].
      cbn [snd fst Reference.consResult]. intros [= <-].
      destruct (IH bs' eq_refl) as [Hf Hc]. cbn [fst] in Hc. subst cs.
      split; [|done]. rewrite !fmap_cons. by rewrite Hf.
Qed.

Lemma fields_elem (bs l : list Branch) (b : Branch) :
  fields <$> bs = fields <$> l → b ∈ bs → ∃ b', b' ∈ l ∧ fields b' = fields b.
Proof.
  intros Heq Hb.
  assert (fields b ∈ fields <$> l) as Hin
    by (rewrite <- Heq; apply list_elem_of_fmap; eauto).
  apply list_elem_of_fmap in Hin as (b' & Hf & Hb'). eauto.
Qed.

End RefreshMore.

(** X15.  A refresh, whatever the gateway answers, either leaves every
    field as it was or is fulfilled and replaces the published collection
    by one collection, pushed once; a rejected refresh always leaves every
    field as it was.  It never assigns the identity, the repository
    setting, the current branch name or [loaded], and never publishes
    [null]. *)
Theorem getBranches_publishes_once_or_nothing :
  ∀ (keys : list string) (gw : Git.Gateway) (s : State.Session),
    let r := Run.run gw (RepositoryService.getBranches keys) s in
    (Run.final r = s
     ∨ ∃ bs, Run.result r = inr tt
             ∧ Run.final r = State.branchesNext (Some bs) s)
    ∧ match Run.result r with
      | inl _ => Run.final r = s
      | inr _ => True
      end.
Proof.
  intros keys gw s r. subst r. unfold Run.run. rewrite getBranches_runWith.
  cbv zeta.
  destruct (Git.getBranches gw (RepositoryService.getPath s)) as [e|out];
    [by split; [left|]|].
  destruct (Parsers.parseBranches keys out) as [e|parsed]; [by split; [left|]|].
  destruct (Reference.countAll gw (RepositoryService.getPath s) parsed)
    as [cs [e|bs]]; cbn -[take drop]; rewrite take_nil.
  - by split; [left|].
  - split; [right; by exists bs|done].
Qed.

(** X16.  A fulfilled refresh of a non-empty listing publishes the parsed
    records with their text fields, their number and their order
    unchanged, and has issued both counting calls of every tracked branch;
    so in the published collection no branch has a name that is the
    non-empty upstream of a published branch.  This holds under every
    schedule of [setId] calls. *)
Theorem getBranches_publishes_parsed_records
        (keys : list string) (gw : Git.Gateway) (schedule : list (list string))
        (s : State.Session) (out : JS.text) (parsed : Model.Branches)
        (Hlist : Git.getBranches gw (RepositoryService.getPath s) = inr out)
        (Hparse : Parsers.parseBranches keys out = inr parsed)
        (Hok : Run.result (Run.runWith gw (RepositoryService.getBranches keys)
                                       schedule s []) = inr tt) :
  let r := Run.runWith gw (RepositoryService.getBranches keys) schedule s [] in
  ∃ bs : Model.Branches,
    State.branches (Run.final r) = Some bs
    ∧ Model.fields <$> bs = Model.fields <$> parsed
    ∧ Run.calls r
      = Git.GetBranches (RepositoryService.getPath s)
        :: flat_map (Spec.countCalls (RepositoryService.getPath s)) parsed
    ∧ ∀ a b, a ∈ bs → b ∈ bs → JS.truthy (Model.upstream b) = true →
             Model.name a ≠ Model.upstream b.
Proof.
  intros r. subst r. revert Hok. rewrite getBranches_runWith. cbv zeta.
  rewrite Hlist, Hparse.
  pose proof (countAll_inr gw (RepositoryService.getPath s) parsed) as Hall.
  destruct (Reference.countAll gw (RepositoryService.getPath s) parsed)
    as [cs [e|bs]]; [done|].
  intros _. destruct (Hall bs eq_refl) as [Hf Hc]. simpl in Hc. subst cs.
  exists bs. cbn [Run.final Run.calls State.branches State.branchesNext].
  split; [done|]. split; [done|]. split; [done|].
  intros a b Ha Hb Ht Heq.
  destruct (fields_elem bs parsed a Hf Ha) as (a' & Ha' & Hfa).
  destruct (fields_elem bs parsed b Hf Hb) as (b' & Hb' & Hfb).
  assert (Model.name a' = Model.name a) as Hna
    by (unfold Model.name, Model.prop; by rewrite Hfa).
  assert (Model.upstream b' = Model.upstream b) as Hub
    by (unfold Model.upstream, Model.prop; by rewrite Hfb).
  destruct out as [[|c out]|]; try done.
  rewrite parseBranches_truthy in Hparse. injection Hparse as <-.
  apply removeUpstreams_elem in Ha' as [_ Ha'']. apply includes_false in Ha''.
  apply Ha''. rewrite Hna, Heq, <- Hub. apply elem_of_withUpstream.
  split; [by rewrite Hub|]. exists b'. split; [|done].
  by apply removeUpstreams_elem in Hb' as [Hb' _].
Qed.

Lemma getBranches_publishes_parsed_records_witness :
  let gw := Samples.gateway (Some Samples.twoTracked) Samples.twoFive in
  let r := Run.runWith gw (RepositoryService.getBranches Samples.schema)
                       [["2"]; []; ["3"]] Samples.sessionOne [] in
  ∃ bs : Model.Branches,
    State.branches (Run.final r) = Some bs
    ∧ Model.fields <$> bs = Model.fields <$> Samples.twoTrackedParsed
    ∧ Run.calls r
      = Git.GetBranches (RepositoryService.getPath Samples.sessionOne)
        :: flat_map (Spec.countCalls (RepositoryService.getPath Samples.sessionOne))
                    Samples.twoTrackedParsed
    ∧ ∀ a b, a ∈ bs → b ∈ bs → JS.truthy (Model.upstream b) = true →
             Model.name a ≠ Model.upstream b.
Proof.
  apply (getBranches_publishes_parsed_records
           Samples.schema (Samples.gateway (Some Samples.twoTracked) Samples.twoFive)
           [["2"]; []; ["3"]] Samples.sessionOne (Some Samples.twoTracked)
           Samples.twoTrackedParsed).
  - reflexivity.
  - vm_compute. reflexivity.
  - vm_compute. reflexivity.
Defined.

(** X17.  When the branch command itself is rejected the refresh is
    rejected with that error after this one call; nothing is parsed,
    counted or published and no field changes. *)
Theorem getBranches_listing_rejected
        (keys : list string) (gw : Git.Gateway) (s : State.Session) (e : JS.jsError)
        (Hlist : Git.getBranches gw (RepositoryService.getPath s) = inl e) :
  Run.run gw (RepositoryService.getBranches keys) s
  = {| Run.final := s;
       Run.calls := [Git.GetBranches (RepositoryService.getPath s)];
       Run.pending := [];
       Run.result := inl e |}.
Proof.
  unfold Run.run. rewrite getBranches_runWith. cbv zeta. by rewrite Hlist.
Qed.

Lemma getBranches_listing_rejected_witness :
  Run.run (MoreSamples.gatewayCurrent (inr None))
          (RepositoryService.getBranches Samples.schema) Samples.sessionOne
  = {| Run.final := Samples.sessionOne;
       Run.calls := [Git.GetBranches (RepositoryService.getPath Samples.sessionOne)];
       Run.pending := [];
       Run.result := inl Samples.gitFailure |}.
Proof.
  apply (getBranches_listing_rejected
           Samples.schema (MoreSamples.gatewayCurrent (inr None))
           Samples.sessionOne Samples.gitFailure).
  reflexivity.
Defined.

(* ===================================================================== *)
(** * Branch deletion and the user configuration *)
(* ===================================================================== *)

Section OpsFacts.
Import State Ops.
Variable cmds : Commands.
Variable s : Session.

Lemma exec_bind {A B : Type} (p : Proc A) (f : A → Proc B) (trace : list Event) :
  exec cmds s (bind p f) trace
  = match result (exec cmds s p trace) with
    | inl e => mkOutcome (events (exec cmds s p trace)) (inl e)
    | inr a => exec cmds s (f a) (events (exec cmds s p trace))
    end.
Proof.
  revert trace.
  induction p as [a|e|k IH|m k IH|n q k IH|n q k IH|q g k IH|q g k IH];
    intros trace; simpl.
  - reflexivity.
  - reflexivity.
  - apply IH.
  - apply IH.
  - destruct (deleteLocalBranch cmds n q); [reflexivity|apply IH].
  - destruct (deleteRemoteBranch cmds n q); [reflexivity|apply IH].
  - destruct (getUsername cmds q g); [reflexivity|apply IH].
  - destruct (getUserMail cmds q g); [reflexivity|apply IH].
Qed.

(** [deleteBranch] in closed form. *)
Lemma deleteBranch_exec (name : string) (includeRemote : bool) (trace : list Event) :
  exec cmds s (deleteBranch name includeRemote) trace
  = let p := RepositoryService.getPath s in
    match deleteLocalBranch cmds name p with
    | inl e => mkOutcome (trace ++ [DeleteLocalBranch name p]) (inl e)
    | inr _ =>
        if includeRemote then
          match deleteRemoteBranch cmds name p with
          | inl e =>
              mkOutcome ((trace ++ [DeleteLocalBranch name p])
                         ++ [DeleteRemoteBranch name p]) (inl e)
          | inr _ =>
              mkOutcome ((trace ++ [DeleteLocalBranch name p])
                         ++ [DeleteRemoteBranch name p]) (inr tt)
          end
        else mkOutcome (trace ++ [DeleteLocalBranch name p]) (inr tt)
    end.
Proof.
  unfold deleteBranch, mbind, Proc_bind, ask, awaitDeleteLocalBranch,
    awaitDeleteRemoteBranch, mret, Proc_ret.
  cbn [negb orb bind exec].
  destruct (deleteLocalBranch cmds name (RepositoryService.getPath s)); [done|].
  destruct includeRemote; cbn [orb bind exec]; [|done].
  by destruct (deleteRemoteBranch cmds name (RepositoryService.getPath s)).
Qed.

(** One step of [deleteBranches]. *)
Lemma deleteBranches_cons (name : string) (rest : list string) (trace : list Event) :
  exec cmds s (deleteBranches (name :: rest)) trace
  = let p := RepositoryService.getPath s in
    let trace' := ((trace ++ [LoggerInfo ("delete branch " ++ name)])
                   ++ [DeleteLocalBranch name p])%list in
    match deleteLocalBranch cmds name p with
    | inl e => mkOutcome trace' (inl e)
    | inr _ => exec cmds s (deleteBranches rest) trace'
    end.
Proof.
  cbn [deleteBranches]. unfold mbind, Proc_bind, loggerInfo.
  cbn [bind exec]. rewrite exec_bind, deleteBranch_exec. cbv zeta.
  by destruct (deleteLocalBranch cmds name (RepositoryService.getPath s)).
Qed.

Lemma deleteBranches_events (names : list string) (trace : list Event) (ev : Event) :
  ev ∈ events (exec cmds s (deleteBranches names) trace) →
  ev ∈ trace
  ∨ (∃ m, ev = LoggerInfo m)
  ∨ (∃ n q, ev = DeleteLocalBranch n q).
Proof.
  revert trace. induction names as [|name rest IH]; intros trace; [by left|].
  rewrite deleteBranches_cons. cbv zeta.
  assert (ev ∈ ((trace ++ [LoggerInfo ("delete branch " ++ name)])
                ++ [DeleteLocalBranch name (RepositoryService.getPath s)])%list →
          ev ∈ trace ∨ (∃ m, ev = LoggerInfo m) ∨ (∃ n q, ev = DeleteLocalBranch n q))
    as Hstep.
  { rewrite !elem_of_app, !list_elem_of_singleton. intros [[H|H]|H]; eauto. }
  destruct (deleteLocalBranch cmds name (RepositoryService.getPath s));
    [exact Hstep|].
  intros H. apply IH in H as [H|H]; [by apply Hstep|by right].
Qed.

End OpsFacts.

(** X18.  [deleteBranch] deletes the local branch first and the remote
    branch only when asked to and only after the local deletion was
    fulfilled: a rejected local deletion rejects the method and the remote
    branch is not touched. *)
Theorem deleteBranch_local_then_remote :
  ∀ (cmds : Ops.Commands) (s : State.Session) (name : string) (includeRemote : bool),
    let p := RepositoryService.getPath s in
    let r := Ops.exec cmds s (Ops.deleteBranch name includeRemote) [] in
    match Ops.deleteLocalBranch cmds name p with
    | inl e => r = Ops.mkOutcome [Ops.DeleteLocalBranch name p] (inl e)
    | inr _ =>
        if includeRemote
        then Ops.events r = [Ops.DeleteLocalBranch name p; Ops.DeleteRemoteBranch name p]
             ∧ Ops.result r
               = match Ops.deleteRemoteBranch cmds name p with
                 | inl e => inl e
                 | inr _ => inr tt
                 end
        else r = Ops.mkOutcome [Ops.DeleteLocalBranch name p] (inr tt)
    end.
Proof.
  intros cmds s name includeRemote p r. subst p r.
  rewrite deleteBranch_exec. cbv zeta.
  destruct (Ops.deleteLocalBranch cmds name (RepositoryService.getPath s)); [done|].
  destruct includeRemote; [|done].
  by destruct (Ops.deleteRemoteBranch cmds name (RepositoryService.getPath s)).
Qed.

(** X19.  [deleteBranches] never deletes a remote branch and never reads
    the user configuration: whatever the commands answer, everything it
    does is a logger line or a local deletion. *)
Theorem deleteBranches_never_deletes_remote :
  ∀ (cmds : Ops.Commands) (s : State.Session) (names : list string) (ev : Ops.Event),
    ev ∈ Ops.events (Ops.exec cmds s (Ops.deleteBranches names) []) →
    (∃ m, ev = Ops.LoggerInfo m) ∨ (∃ n q, ev = Ops.DeleteLocalBranch n q).
Proof.
  intros cmds s names ev Hev.
  apply deleteBranches_events in Hev as [Hev|Hev]; [|done].
  by apply elem_of_nil in Hev.
Qed.

Lemma deleteBranches_never_deletes_remote_witness :
  (∃ m, Ops.DeleteLocalBranch "fix" (Some "/repos/one") = Ops.LoggerInfo m)
  ∨ (∃ n q, Ops.DeleteLocalBranch "fix" (Some "/repos/one") = Ops.DeleteLocalBranch n q).
Proof.
  apply (deleteBranches_never_deletes_remote
           (MoreSamples.commands "none") Samples.sessionOne ["feature"; "fix"]).
  vm_compute. right. right. right. left.
Defined.

(** X20.  When every local deletion is fulfilled, [deleteBranches] is
    fulfilled and has, for each name in the order given, written the line
    "delete branch" followed by the name to the logger and then deleted
    that local branch, with the path of the session. *)
Theorem deleteBranches_deletes_each_in_order
        (cmds : Ops.Commands) (s : State.Session) (names : list string)
        (Hall : ∀ n, n ∈ names →
                     ∃ v, Ops.deleteLocalBranch cmds n (RepositoryService.getPath s)
                          = inr v) :
  Ops.exec cmds s (Ops.deleteBranches names) []
  = Ops.mkOutcome
      (flat_map (fun n => [Ops.LoggerInfo ("delete branch " ++ n);
                           Ops.DeleteLocalBranch n (RepositoryService.getPath s)])
                names)
      (inr tt).
Proof.
  assert (∀ trace,
             Ops.exec cmds s (Ops.deleteBranches names) trace
             = Ops.mkOutcome
                 (trace ++ flat_map
                    (fun n => [Ops.LoggerInfo ("delete branch " ++ n);
                               Ops.DeleteLocalBranch n (RepositoryService.getPath s)])
                    names)%list
                 (inr tt)) as Hgen.
  { induction names as [|name rest IH]; intros trace.
    - simpl. by rewrite app_nil_r.
    - rewrite deleteBranches_cons. cbv zeta.
      destruct (Hall name) as [v ->]; [by left|].
      rewrite IH by (intros n Hn; apply Hall; by right).
      simpl. by rewrite <- !app_assoc. }
  apply Hgen.
Qed.

Lemma deleteBranches_deletes_each_in_order_witness :
  Ops.exec (MoreSamples.commands "none") Samples.sessionOne
           (Ops.deleteBranches ["feature"; "fix"]) []
  = Ops.mkOutcome
      (flat_map (fun n => [Ops.LoggerInfo ("delete branch " ++ n);
                           Ops.DeleteLocalBranch
                             n (RepositoryService.getPath Samples.sessionOne)])
                ["feature"; "fix"])
      (inr tt).
Proof.
  apply (deleteBranches_deletes_each_in_order
           (MoreSamples.commands "none") Samples.sessionOne ["feature"; "fix"]).
  intros n Hn. exists tt. apply list_elem_of_In in Hn.
  destruct Hn as [<-|[<-|[]]]; reflexivity.
Defined.

(** X21.  [deleteBranches] stops at the first local deletion that is
    rejected: the method is rejected with that error, the names before it
    were deleted in order, and the names after it are neither logged nor
    deleted. *)
Theorem deleteBranches_stops_at_first_failure
        (cmds : Ops.Commands) (s : State.Session)
        (before after : list string) (name : string) (e : JS.jsError)
        (Hbefore : ∀ n, n ∈ before →
                        ∃ v, Ops.deleteLocalBranch cmds n (RepositoryService.getPath s)
                             = inr v)
        (Hfail : Ops.deleteLocalBranch cmds name (RepositoryService.getPath s) = inl e) :
  Ops.exec cmds s (Ops.deleteBranches (before ++ name :: after)) []
  = Ops.mkOutcome
      (flat_map (fun n => [Ops.LoggerInfo ("delete branch " ++ n);
                           Ops.DeleteLocalBranch n (RepositoryService.getPath s)])
                (before ++ [name]))
      (inl e).
Proof.
  assert (∀ trace,
             Ops.exec cmds s (Ops.deleteBranches (before ++ name :: after)) trace
             = Ops.mkOutcome
                 (trace ++ flat_map
                    (fun n => [Ops.LoggerInfo ("delete branch " ++ n);
                               Ops.DeleteLocalBranch n (RepositoryService.getPath s)])
                    (before ++ [name]))%list
                 (inl e)) as Hgen.
  { induction before as [|b before IH]; intros trace.
    - cbn [app]. rewrite deleteBranches_cons. cbv zeta. rewrite Hfail.
      simpl. by rewrite <- !app_assoc.
    - cbn [app]. rewrite deleteBranches_cons. cbv zeta.
      destruct (Hbefore b) as [v ->]; [by left|].
      rewrite IH by (intros n Hn; apply Hbefore; by right).
      simpl. by rewrite <- !app_assoc. }
  apply Hgen.
Qed.

Lemma deleteBranches_stops_at_first_failure_witness :
  Ops.exec (MoreSamples.commands "fix") Samples.sessionOne
           (Ops.deleteBranches (["feature"] ++ "fix" :: ["old"])) []
  = Ops.mkOutcome
      (flat_map (fun n => [Ops.LoggerInfo ("delete branch " ++ n);
                           Ops.DeleteLocalBranch
                             n (RepositoryService.getPath Samples.sessionOne)])
                (["feature"] ++ ["fix"]))
      (inl Samples.gitFailure).
Proof.
  apply (deleteBranches_stops_at_first_failure
           (MoreSamples.commands "fix") Samples.sessionOne
           ["feature"] ["old"] "fix" Samples.gitFailure).
  - intros n Hn. exists tt. apply list_elem_of_In in Hn.
    destruct Hn as [<-|[]]. reflexivity.
  - reflexivity.
Defined.

(** X22.  When the four configuration commands are fulfilled,
    [loadUserConfig] asks for the global name and mail, then for the local
    name and mail, in this order; if the local name or the local mail is
    non-empty the result is the local pair, both values, marked not global,
    so that an empty local value is not filled in from the global
    configuration; otherwise the result is the global pair, marked global. *)
Theorem loadUserConfig_local_pair_overrides
        (cmds : Ops.Commands) (s : State.Session)
        (globalName globalMail localName localMail : JS.text)
        (Hgn : Ops.getUsername cmds None true = inr globalName)
        (Hgm : Ops.getUserMail cmds None true = inr globalMail)
        (Hln : Ops.getUsername cmds (RepositoryService.getPath s) false = inr localName)
        (Hlm : Ops.getUserMail cmds (RepositoryService.getPath s) false = inr localMail) :
  Ops.exec cmds s Ops.loadUserConfig []
  = Ops.mkOutcome
      [Ops.GetUsername None true; Ops.GetUserMail None true;
       Ops.GetUsername (RepositoryService.getPath s) false;
       Ops.GetUserMail (RepositoryService.getPath s) false]
      (inr (if JS.truthy localName || JS.truthy localMail
            then {| Ops.name := localName; Ops.email := localMail; Ops.global := false |}
            else {| Ops.name := globalName; Ops.email := globalMail;
                    Ops.global := true |})).
Proof.
  unfold Ops.loadUserConfig, Ops.loadGlobalUserConfig, mbind, Ops.Proc_bind,
    Ops.ask, Ops.awaitGetUsername, Ops.awaitGetUserMail, mret, Ops.Proc_ret.
  cbn [Ops.bind Ops.exec]. rewrite Hgn. cbn [Ops.bind Ops.exec]. rewrite Hgm.
  cbn [Ops.bind Ops.exec]. rewrite Hln. cbn [Ops.bind Ops.exec]. rewrite Hlm.
  by destruct (JS.truthy localName || JS.truthy localMail).
Qed.

Lemma loadUserConfig_local_pair_overrides_witness :
  Ops.exec (MoreSamples.commands "none") Samples.sessionOne Ops.loadUserConfig []
  = Ops.mkOutcome
      [Ops.GetUsername None true; Ops.GetUserMail None true;
       Ops.GetUsername (RepositoryService.getPath Samples.sessionOne) false;
       Ops.GetUserMail (RepositoryService.getPath Samples.sessionOne) false]
      (inr (if JS.truthy (Some "Local Name") || JS.truthy (Some "")
            then {| Ops.name := Some "Local Name"; Ops.email := Some "";
                    Ops.global := false |}
            else {| Ops.name := Some "Global Name";
                    Ops.email := Some "global@example.org";
                    Ops.global := true |})).
Proof.
  apply (loadUserConfig_local_pair_overrides
           (MoreSamples.commands "none") Samples.sessionOne
           (Some "Global Name") (Some "global@example.org")
           (Some "Local Name") (Some "")).
  - reflexivity.
  - reflexivity.
  - reflexivity.
  - reflexivity.
Defined.
